(** * The NFT-minting DAO of [app.py]: proposal registry, vote tally and
    minting bridge, embedded as functions over the contract's storage.

    [app.py] is a pair of PyTeal/Beaker applications.  The DAO keeps two
    global values ([winning_proposal_votes], [winning_proposal]) and three
    Beaker [BoxMapping]s that share the application's single box space:
    [has_voted] (no prefix, keyed by a 32-byte address), [proposals]
    (prefix "p-") and [votes] (prefix "v-"), both keyed by the encoding of
    an (address, uint64) pair.  Boxes are therefore modelled as one finite
    map from box names to box contents, both byte strings, and every
    encoding the program performs is written out. *)

From Stdlib Require Import ZArith Lia Ascii.
From stdpp Require Import base option list gmap strings.

Local Open Scope Z_scope.

(** Byte strings of the AVM. *)
Abbreviation bytes := (list ascii).

(** ** Failures

    A PyTeal program has no error values: a failing [Assert] or a failing
    opcode rejects the transaction.  Each constructor names one place of
    [app.py] (or of the Beaker/AVM primitive it calls) where that
    happens. *)
Inductive error : Type :=
| receiver_mismatch       (* add_proposal: Assert(receiver == application address) *)
| proposal_exists         (* add_proposal: Assert(proposals[key].exists() == 0) *)
| payment_below_mbr       (* add_proposal: Assert(amount >= current_mbr - pre_mbr) *)
| has_already_voted       (* vote: Assert(has_voted[sender].exists() == 0) *)
| box_not_found (name : bytes) (* MapElement.get: Assert(maybe.hasValue()) *)
| uint64_overflow         (* AVM [+] above 2^64 - 1 *)
| uint64_underflow        (* AVM [-] below 0 *)
| btoi_too_long           (* AVM [btoi] of more than 8 bytes *)
| extract_out_of_range    (* AVM [extract]/[substring]/[extract_uint16] past the end *)
| asset_config_rejected.  (* the inner AssetConfig transaction failed *)

(** The outcome of an opcode or of a call: a value, or the failure that
    rejected the transaction. *)
Definition result (A : Type) : Type := (error + A)%type.

Global Instance result_ret : MRet result := λ A a, inr a.
Global Instance result_bind : MBind result := λ A B f m,
  match m with
  | inl e => inl e
  | inr a => f a
  end.
Global Instance result_fmap : FMap result := λ A B f m,
  match m with
  | inl e => inl e
  | inr a => inr (f a)
  end.

(** ** AVM values and opcodes *)
Module AVM.

Definition uint64_max : Z := 2 ^ 64 - 1.

Definition byte_of_Z (v : Z) : ascii := ascii_of_N (Z.to_N (v mod 256)).
Definition Z_of_byte (c : ascii) : Z := Z.of_N (N_of_ascii c).

(** Big-endian encoding on [n] bytes, and the value of a big-endian
    byte string. *)
Fixpoint be_encode (n : nat) (v : Z) : bytes :=
  match n with
  | O => []
  | S n' => be_encode n' (v / 256) ++ [byte_of_Z v]
  end.

Definition be_decode (b : bytes) : Z :=
  fold_left (λ acc c, acc * 256 + Z_of_byte c) b 0.

(** [itob]: a uint64 as 8 big-endian bytes. *)
Definition Itob (v : Z) : bytes := be_encode 8 v.

(** [btoi]: fails on more than 8 bytes. *)
Definition Btoi (b : bytes) : result Z :=
  if (length b <=? 8)%nat then inr (be_decode b) else inl btoi_too_long.

(** [+] and [-] on uint64 fail instead of wrapping. *)
Definition add (a b : Z) : result Z :=
  if a + b <=? uint64_max then inr (a + b) else inl uint64_overflow.

Definition minus (a b : Z) : result Z :=
  if b <=? a then inr (a - b) else inl uint64_underflow.

(** [extract s l], [substring s e], [extract_uint16] and PyTeal's
    [Suffix]. *)
Definition Extract (b : bytes) (s l : nat) : result bytes :=
  if (s + l <=? length b)%nat then inr (take l (drop s b))
  else inl extract_out_of_range.

Definition Substring (b : bytes) (s e : nat) : result bytes :=
  if ((s <=? e) && (e <=? length b))%nat then inr (take (e - s) (drop s b))
  else inl extract_out_of_range.

Definition Suffix (b : bytes) (s : nat) : result bytes :=
  if (s <=? length b)%nat then inr (drop s b) else inl extract_out_of_range.

Definition ExtractUint16 (b : bytes) (s : nat) : result nat :=
  if (s + 2 <=? length b)%nat
  then inr (Z.to_nat (be_decode (take 2 (drop s b))))
  else inl extract_out_of_range.

End AVM.

(** ** The contract's storage *)

(** [DAOState]: the two [GlobalStateValue]s, and the application's boxes,
    in which the three [BoxMapping]s live side by side. *)
Record DAOState : Type := mkDAOState {
  winning_proposal_votes : Z;
  winning_proposal : bytes;
  boxes : gmap bytes bytes
}.

(** What a call sees of its transaction and of the ledger:
    [Txn.sender()], [Global.current_application_address()],
    [AccountParam.minBalance] of the application account (it depends on
    the boxes the account holds) and the ledger's execution of an inner
    AssetConfig transaction. *)
Record AssetConfig : Type := mkAssetConfig {
  config_asset_name : bytes;
  config_asset_unit_name : bytes;
  config_asset_reserve : bytes;
  config_asset_url : bytes;
  config_asset_metadata_hash : bytes;
  config_asset_total : Z;
  fee : Z
}.

Record Env : Type := mkEnv {
  sender : bytes;
  current_application_address : bytes;
  minBalance : gmap bytes bytes → Z;
  created_asset_id : AssetConfig → option Z
}.

(** ** Sequencing: a program step reads and writes the storage and may
    reject the transaction. *)
Definition Exec (A : Type) : Type := DAOState → result (A * DAOState).

Global Instance Exec_ret : MRet Exec := λ A a s, inr (a, s).
Global Instance Exec_bind : MBind Exec := λ A B f m s,
  match m s with
  | inl e => inl e
  | inr (a, s') => f a s'
  end.

Definition Assert (e : error) (cond : bool) : Exec unit :=
  λ s, if cond then inr (tt, s) else inl e.

Definition lift {A} (r : result A) : Exec A :=
  λ s, match r with inl e => inl e | inr a => inr (a, s) end.

Definition skip : Exec unit := mret tt.

(** Box opcodes. *)
Definition BoxLen (name : bytes) : Exec (option nat) :=
  λ s, inr (length <$> boxes s !! name, s).

Definition BoxGet (name : bytes) : Exec (option bytes) :=
  λ s, inr (boxes s !! name, s).

Definition BoxDelete (name : bytes) : Exec unit :=
  λ s, inr (tt, mkDAOState (winning_proposal_votes s) (winning_proposal s)
                           (delete name (boxes s))).

Definition BoxPut (name value : bytes) : Exec unit :=
  λ s, inr (tt, mkDAOState (winning_proposal_votes s) (winning_proposal s)
                           (<[name := value]> (boxes s))).

(** Beaker's [MapElement]: [exists], [get] and [set]. *)
Module MapElement.

Definition exists_ (name : bytes) : Exec bool :=
  maybe ← BoxLen name; mret (bool_decide (is_Some maybe)).

Definition get (name : bytes) : Exec bytes :=
  maybe ← BoxGet name;
  match maybe with
  | Some v => mret v
  | None => λ _, inl (box_not_found name)
  end.

Definition set (name value : bytes) : Exec unit :=
  BoxDelete name;; BoxPut name value.

End MapElement.

(** Box names of the three [BoxMapping]s: [has_voted] is declared without
    a prefix, so its boxes are named by the key itself. *)
Definition has_voted (key : bytes) : bytes := key.
Definition proposals (key : bytes) : bytes := ["p"; "-"]%char ++ key.
Definition votes (key : bytes) : bytes := ["v"; "-"]%char ++ key.

(** Global state accessors. *)
Definition get_winning_proposal_votes : Exec Z :=
  λ s, inr (winning_proposal_votes s, s).
Definition set_winning_proposal_votes (v : Z) : Exec unit :=
  λ s, inr (tt, mkDAOState v (winning_proposal s) (boxes s)).
Definition get_winning_proposal : Exec bytes :=
  λ s, inr (winning_proposal s, s).
Definition set_winning_proposal (k : bytes) : Exec unit :=
  λ s, inr (tt, mkDAOState (winning_proposal_votes s) k (boxes s)).

(** ** ABI values

    PyTeal keeps a tuple value in its encoded form: [decode] stores the
    bytes it is given, [encode] hands them back, and a field is cut out of
    the encoding when it is read. *)
Module ABI.

(** [abi.Uint64]. *)
Definition Uint64_encode (v : Z) : bytes := AVM.Itob v.
Definition Uint64_decode (b : bytes) : result Z := AVM.Btoi b.

(** [abi.Bool]: one byte whose top bit is the value. *)
Definition Bool_encode (v : bool) : bytes :=
  [AVM.byte_of_Z (if v then 128 else 0)].

(** [abi.Tuple2[abi.Address, abi.Uint64]]: both components are static,
    so [set] concatenates their encodings. *)
Definition Tuple2_set (addr : bytes) (n : Z) : bytes :=
  addr ++ Uint64_encode n.
Definition Tuple2_decode (encoded : bytes) : bytes := encoded.
Definition Tuple2_encode (stored : bytes) : bytes := stored.

(** The 4-byte prefix of an ABI return value in the log. *)
Definition return_prefix : bytes :=
  [AVM.byte_of_Z 21; AVM.byte_of_Z 31; AVM.byte_of_Z 124; AVM.byte_of_Z 117].
Definition MethodReturn (v : Z) : bytes := return_prefix ++ Uint64_encode v.

End ABI.

(** [NFTProposal]: the named tuple (url, metadata_hash, name, unit_name,
    reserve) of types (string, byte[32], string, string, address). *)
Module NFTProposal.

Record t : Type := mk {
  url : bytes;
  metadata_hash : bytes;
  name : bytes;
  unit_name : bytes;
  reserve : bytes
}.

Definition uint16 (n : nat) : bytes := AVM.be_encode 2 (Z.of_nat n).

(** An [abi.String]: its length on two bytes, then its bytes. *)
Definition String_encode (s : bytes) : bytes := uint16 (length s) ++ s.

(** The head holds the static fields in place and, for each string, the
    offset of its encoding in the tail: 2 + 32 + 2 + 2 + 32 bytes. *)
Definition head_length : nat := 70.

Definition encode (p : t) : bytes :=
  let url_at := head_length in
  let name_at := (url_at + 2 + length (url p))%nat in
  let unit_name_at := (name_at + 2 + length (name p))%nat in
  uint16 url_at ++ metadata_hash p ++ uint16 name_at ++ uint16 unit_name_at
    ++ reserve p
    ++ String_encode (url p) ++ String_encode (name p)
    ++ String_encode (unit_name p).

(** A record that has an encoding: 32-byte hash and reserve address, and
    every offset fits on two bytes. *)
Definition valid (p : t) : Prop :=
  length (metadata_hash p) = 32%nat ∧ length (reserve p) = 32%nat ∧
  Z.of_nat (length (encode p)) < 65536.

(** Reading the fields of an encoded tuple, as [store_into] on a field
    does.  A static field is extracted at its place in the head.  A string field runs from its
    offset to the offset of the next string field, the last one to the end
    of the encoding; [abi.String.get] then drops the two length bytes. *)
Definition get_url (encoded : bytes) : result bytes :=
  start ← AVM.ExtractUint16 encoded 0;
  stop ← AVM.ExtractUint16 encoded 34;
  field ← AVM.Substring encoded start stop;
  AVM.Suffix field 2.

Definition get_metadata_hash (encoded : bytes) : result bytes :=
  AVM.Extract encoded 2 32.

Definition get_name (encoded : bytes) : result bytes :=
  start ← AVM.ExtractUint16 encoded 34;
  stop ← AVM.ExtractUint16 encoded 36;
  field ← AVM.Substring encoded start stop;
  AVM.Suffix field 2.

Definition get_unit_name (encoded : bytes) : result bytes :=
  start ← AVM.ExtractUint16 encoded 36;
  field ← AVM.Suffix encoded start;
  AVM.Suffix field 2.

Definition get_reserve (encoded : bytes) : result bytes :=
  AVM.Extract encoded 38 32.

End NFTProposal.

(** ** The NFT minter application *)
Module Minter.

(** [mint_nft]: reads the five fields of the proposal, submits an
    AssetConfig inner transaction with total 1 and fee 0, and returns
    the id of the asset the ledger created. *)
Definition mint_nft (env : Env) (proposal : bytes) : result Z :=
  name ← NFTProposal.get_name proposal;
  unit_name ← NFTProposal.get_unit_name proposal;
  reserve ← NFTProposal.get_reserve proposal;
  url ← NFTProposal.get_url proposal;
  metadata_hash ← NFTProposal.get_metadata_hash proposal;
  match created_asset_id env
          {| config_asset_name := name;
             config_asset_unit_name := unit_name;
             config_asset_reserve := reserve;
             config_asset_url := url;
             config_asset_metadata_hash := metadata_hash;
             config_asset_total := 1;
             fee := 0 |} with
  | Some id => mret id
  | None => inl asset_config_rejected
  end.

(** A method call to [mint_nft] as its caller sees it: the router logs
    the returned uint64 behind the ABI return prefix. *)
Definition call_mint_nft (env : Env) (proposal : bytes) : result bytes :=
  output ← mint_nft env proposal;
  mret (ABI.MethodReturn output).

End Minter.

(** ** The DAO application *)

(** The [abi.PaymentTransaction] argument, as far as it is read. *)
Record PaymentTransaction : Type := mkPayment {
  receiver : bytes;
  amount : Z
}.

Module DAO.

(** [create]: [initialize_global_state] writes the two defaults; no box
    exists yet. *)
Definition create : DAOState :=
  {| winning_proposal_votes := 0; winning_proposal := []; boxes := ∅ |}.

Definition AccountParam_minBalance (env : Env) : Exec Z :=
  λ s, inr (minBalance env (boxes s), s).

Definition add_proposal (env : Env) (proposal : bytes) (proposal_id : Z)
    (mbr_payment : PaymentTransaction) : Exec unit :=
  Assert receiver_mismatch
    (bool_decide (receiver mbr_payment = current_application_address env));;
  pre_mbr ← AccountParam_minBalance env;
  let addr := sender env in
  let proposal_key := ABI.Tuple2_set addr proposal_id in
  found ← MapElement.exists_ (proposals (ABI.Tuple2_encode proposal_key));
  Assert proposal_exists (negb found);;
  MapElement.set (proposals (ABI.Tuple2_encode proposal_key)) proposal;;
  current_mbr ← AccountParam_minBalance env;
  delta ← lift (AVM.minus current_mbr pre_mbr);
  Assert payment_below_mbr (delta <=? amount mbr_payment).

Definition vote (env : Env) (proposer : bytes) (proposal_id : Z) : Exec unit :=
  let zero_val := 0 in
  let proposal_key := ABI.Tuple2_set proposer proposal_id in
  voted ← MapElement.exists_ (has_voted (sender env));
  Assert has_already_voted (negb voted);;
  found ← MapElement.exists_ (votes (ABI.Tuple2_encode proposal_key));
  (if negb found
   then MapElement.set (votes (ABI.Tuple2_encode proposal_key))
          (ABI.Uint64_encode zero_val)
   else skip);;
  stored ← MapElement.get (votes (ABI.Tuple2_encode proposal_key));
  current_votes ← lift (ABI.Uint64_decode stored);
  total_votes ← lift (AVM.add current_votes 1);
  MapElement.set (votes (ABI.Tuple2_encode proposal_key))
    (ABI.Uint64_encode total_votes);;
  leading ← get_winning_proposal_votes;
  (if leading <? total_votes
   then set_winning_proposal_votes total_votes;;
        set_winning_proposal (ABI.Tuple2_encode proposal_key)
   else skip);;
  let true_value := true in
  MapElement.set (has_voted (sender env)) (ABI.Bool_encode true_value).

(** [mint]: the [minter_app] argument is not read; the call goes to the
    application the template variable TMPL_MINTER_APP names, taken to be
    the Minter above. *)
Definition mint (env : Env) : Exec Z :=
  stored ← get_winning_proposal;
  let proposal_key := ABI.Tuple2_decode stored in
  proposal ← MapElement.get (proposals (ABI.Tuple2_encode proposal_key));
  last_log ← lift (Minter.call_mint_nft env proposal);
  suffix ← lift (AVM.Suffix last_log 4);
  lift (AVM.Btoi suffix).

End DAO.

(** ** Calls and reachable states *)

(** One application call, with what it sees of its transaction. *)
Inductive call : Type :=
| call_add_proposal (env : Env) (proposal : bytes) (proposal_id : Z)
    (mbr_payment : PaymentTransaction)
| call_vote (env : Env) (proposer : bytes) (proposal_id : Z)
| call_mint (env : Env).

(** The storage after the program of a call, or the failure. *)
Definition run (c : call) (s : DAOState) : result DAOState :=
  match c with
  | call_add_proposal env proposal proposal_id mbr_payment =>
      snd <$> DAO.add_proposal env proposal proposal_id mbr_payment s
  | call_vote env proposer proposal_id =>
      snd <$> DAO.vote env proposer proposal_id s
  | call_mint env => snd <$> DAO.mint env s
  end.

(** A rejected transaction writes nothing. *)
Definition apply_call (s : DAOState) (c : call) : DAOState :=
  match run c s with
  | inr s' => s'
  | inl _ => s
  end.

Definition apply_calls (s : DAOState) (cs : list call) : DAOState :=
  fold_left apply_call cs s.

(** Arguments of the declared ABI types: addresses are 32 bytes, uint64
    values are below 2^64. *)
Definition is_address (a : bytes) : Prop := length a = 32%nat.
Definition is_uint64 (v : Z) : Prop := 0 ≤ v ≤ AVM.uint64_max.

Definition call_env (c : call) : Env :=
  match c with
  | call_add_proposal env _ _ _ | call_vote env _ _ | call_mint env => env
  end.

(** A call whose arguments are of the types its method declares.  For
    [vote] this is more than the program enforces: [proposer] is declared
    [abi.Address], but [app.py:77-86] never looks at its length (see
    [admissible] below). *)
Definition well_formed (c : call) : Prop :=
  is_address (sender (call_env c)) ∧
  match c with
  | call_add_proposal _ _ proposal_id mbr_payment =>
      is_uint64 proposal_id ∧ is_uint64 (amount mbr_payment)
  | call_vote _ proposer proposal_id =>
      is_address proposer ∧ is_uint64 proposal_id
  | call_mint _ => True
  end.

(** The states reached from [create] by calls of the declared argument
    types, accepted or rejected. *)
Inductive reachable : DAOState → Prop :=
| reachable_create : reachable DAO.create
| reachable_call s c :
    reachable s → well_formed c → reachable (apply_call s c).

(** What the platform alone guarantees of a call: the sender of a
    transaction is a 32-byte address, and a [uint64] argument is read
    with [Btoi].  The [proposer] of [vote] is taken as the bytes it comes
    with, of any length: [proposal_key.set(proposer, proposal_id)]
    ([app.py:86]) concatenates them with the 8 bytes of the number. *)
Definition admissible (c : call) : Prop :=
  is_address (sender (call_env c)) ∧
  match c with
  | call_add_proposal _ _ proposal_id mbr_payment =>
      is_uint64 proposal_id ∧ is_uint64 (amount mbr_payment)
  | call_vote _ _ proposal_id => is_uint64 proposal_id
  | call_mint _ => True
  end.

(** The states reached from [create] by any calls the program can
    receive. *)
Inductive attainable : DAOState → Prop :=
| attainable_create : attainable DAO.create
| attainable_call s c :
    attainable s → admissible c → attainable (apply_call s c).

(** ** Reading the storage

    The three mappings are told apart by the shape of a box name: a
    [has_voted] box is named by a 32-byte address, a [votes] or
    [proposals] box by its two-byte prefix and a 40-byte key.  That is
    how the boxes of a [reachable] state are named; a [vote] whose
    [proposer] has 22 bytes names its count box with 32 bytes instead. *)
Definition is_key (k : bytes) : Prop := length k = 40%nat.

Definition is_votes_box (name : bytes) : bool :=
  bool_decide (take 2 name = ["v"; "-"]%char ∧ length name = 42%nat).

(** The count stored for a key; a key never voted on counts 0. *)
Definition vote_count (s : DAOState) (key : bytes) : Z :=
  match boxes s !! votes key with
  | Some b => AVM.be_decode b
  | None => 0
  end.

(** The largest and the sum of the stored counts. *)
Definition max_vote_count (s : DAOState) : Z :=
  map_fold (λ name b acc, if is_votes_box name
                          then Z.max (AVM.be_decode b) acc else acc)
           0 (boxes s).

Definition vote_total (s : DAOState) : Z :=
  map_fold (λ name b acc, if is_votes_box name
                          then AVM.be_decode b + acc else acc)
           0 (boxes s).

(** The identities whose ballot guard is set. *)
Definition voters (s : DAOState) : gset bytes :=
  filter (λ name, length name = 32%nat) (dom (boxes s)).

(** The three ways a call leaves the storage: untouched (a rejected
    transaction, or [mint]), with one more proposal, or with one more
    ballot counted. *)
Definition with_proposal (key proposal : bytes) (s : DAOState) : DAOState :=
  {| winning_proposal_votes := winning_proposal_votes s;
     winning_proposal := winning_proposal s;
     boxes := <[proposals key := proposal]> (boxes s) |}.

Definition with_ballot (voter key : bytes) (total : Z) (s : DAOState)
    : DAOState :=
  {| winning_proposal_votes :=
       if winning_proposal_votes s <? total
       then total else winning_proposal_votes s;
     winning_proposal :=
       if winning_proposal_votes s <? total
       then key else winning_proposal s;
     boxes := <[has_voted voter := ABI.Bool_encode true]>
                (<[votes key := AVM.Itob total]> (boxes s)) |}.

Inductive step (s : DAOState) : DAOState → Prop :=
| step_none : step s s
| step_proposal key proposal :
    is_key key →
    boxes s !! proposals key = None →
    step s (with_proposal key proposal s)
| step_ballot voter key :
    is_address voter → is_key key →
    boxes s !! has_voted voter = None →
    vote_count s key + 1 ≤ AVM.uint64_max →
    step s (with_ballot voter key (vote_count s key + 1) s).

(** Every box is of one of the three mappings, and a [votes] box holds
    8 bytes. *)
Definition well_shaped (s : DAOState) : Prop :=
  ∀ name b, boxes s !! name = Some b →
    is_address name ∨
    (∃ k, is_key k ∧ name = votes k ∧ length b = 8%nat) ∨
    (∃ k, is_key k ∧ name = proposals k).

(** The winner pointer is either still at its defaults, or names a key
    whose stored count is the leading count. *)
Definition pointer_consistent (s : DAOState) : Prop :=
  (winning_proposal_votes s = 0 ∧ winning_proposal s = []) ∨
  (0 < winning_proposal_votes s ≤ AVM.uint64_max ∧
   is_key (winning_proposal s) ∧
   boxes s !! votes (winning_proposal s)
     = Some (AVM.Itob (winning_proposal_votes s))).

(** ** Sample accounts and transactions, on which the programs are run *)
Definition account (c : ascii) : bytes := replicate 32 c.

(** The ledger charges a flat amount and a per-byte amount for each box;
    any asset it is asked to create gets the id 1001. *)
Definition sample_minBalance (b : gmap bytes bytes) : Z :=
  map_fold (λ name content acc,
              2500 + 400 * Z.of_nat (length name + length content) + acc)
           100000 b.

Definition sample_env (who : ascii) : Env :=
  {| sender := account who;
     current_application_address := account "D";
     minBalance := sample_minBalance;
     created_asset_id := λ _, Some 1001 |}.

(** A [proposer] argument of 22 bytes and the 30-byte key it makes with
    the number 7: the count box of that key has a 32-byte name, like a
    [has_voted] box.  [sample_env_of a] is the sample transaction sent by
    the account of address [a]; [short_key_account] is the account whose
    address is the name of that count box. *)
Definition short_proposer : bytes := replicate 22 "x"%char.
Definition short_key : bytes := ABI.Tuple2_set short_proposer 7.

Definition sample_env_of (a : bytes) : Env :=
  {| sender := a;
     current_application_address := account "D";
     minBalance := sample_minBalance;
     created_asset_id := λ _, Some 1001 |}.

Definition short_key_account : bytes := votes short_key.

Definition sample_proposal : NFTProposal.t :=
  {| NFTProposal.url := ["i"; "p"; "f"; "s"]%char;
     NFTProposal.metadata_hash := replicate 32 "h"%char;
     NFTProposal.name := ["A"; "r"; "t"]%char;
     NFTProposal.unit_name := ["A"]%char;
     NFTProposal.reserve := account "R" |}.

(** The states reached when every vote names a key at which a proposal
    is already stored. *)
Definition names_stored_proposal (s : DAOState) (c : call) : Prop :=
  match c with
  | call_vote _ proposer proposal_id =>
      is_Some (boxes s !! proposals (ABI.Tuple2_set proposer proposal_id))
  | _ => True
  end.

Inductive reachable_voting_stored : DAOState → Prop :=
| reachable_stored_create : reachable_voting_stored DAO.create
| reachable_stored_call s c :
    reachable_voting_stored s → well_formed c → names_stored_proposal s c →
    reachable_voting_stored (apply_call s c).

(** * Properties *)

(** ** Encodings *)
Section Encoding.

Lemma Z_of_byte_of_Z v : AVM.Z_of_byte (AVM.byte_of_Z v) = v mod 256.
Proof.
  unfold AVM.Z_of_byte, AVM.byte_of_Z.
  assert (0 ≤ v mod 256 < 256) by (apply Z.mod_pos_bound; lia).
  rewrite N_ascii_embedding; lia.
Qed.

Lemma Z_of_byte_range c : 0 ≤ AVM.Z_of_byte c < 256.
Proof.
  unfold AVM.Z_of_byte. pose proof (N_ascii_bounded c). lia.
Qed.

Lemma length_be_encode n v : length (AVM.be_encode n v) = n.
Proof.
  revert v. induction n as [|n IH]; intros v; simpl; [done|].
  rewrite length_app, IH. simpl. lia.
Qed.

Lemma be_decode_snoc b c :
  AVM.be_decode (b ++ [c]) = AVM.be_decode b * 256 + AVM.Z_of_byte c.
Proof. unfold AVM.be_decode. by rewrite fold_left_app. Qed.

Lemma be_decode_nonneg b : 0 ≤ AVM.be_decode b.
Proof.
  induction b as [|c b IH] using rev_ind; [done|].
  rewrite be_decode_snoc. pose proof (Z_of_byte_range c). lia.
Qed.

Lemma be_decode_encode n v :
  AVM.be_decode (AVM.be_encode n v) = v mod 256 ^ Z.of_nat n.
Proof.
  revert v. induction n as [|n IH]; intros v.
  - simpl. by rewrite Z.mod_1_r.
  - simpl AVM.be_encode. rewrite be_decode_snoc, IH, Z_of_byte_of_Z.
    rewrite Nat2Z.inj_succ, Z.pow_succ_r by lia.
    rewrite (Z.rem_mul_r v 256 (256 ^ Z.of_nat n)) by lia. lia.
Qed.

Lemma length_Itob v : length (AVM.Itob v) = 8%nat.
Proof. apply length_be_encode. Qed.

Lemma be_decode_Itob v : is_uint64 v → AVM.be_decode (AVM.Itob v) = v.
Proof.
  intros [??]. unfold AVM.Itob. rewrite be_decode_encode.
  apply Z.mod_small. unfold AVM.uint64_max in *. simpl. lia.
Qed.

End Encoding.

(** ** The programs in closed form *)
Section Programs.

Lemma vote_eq env proposer proposal_id s :
  DAO.vote env proposer proposal_id s =
    let key := proposer ++ AVM.Itob proposal_id in
    match boxes s !! has_voted (sender env) with
    | Some _ => inl has_already_voted
    | None =>
        current ← match boxes s !! votes key with
                  | Some b => AVM.Btoi b
                  | None => inr 0
                  end;
        total ← AVM.add current 1;
        inr (tt, with_ballot (sender env) key total s)
    end.
Proof.
  unfold DAO.vote, MapElement.exists_, MapElement.get, MapElement.set,
    BoxLen, BoxGet, BoxDelete, BoxPut, Assert, lift, skip,
    get_winning_proposal_votes, set_winning_proposal_votes,
    set_winning_proposal, with_ballot, has_voted,
    ABI.Tuple2_encode, ABI.Tuple2_set, ABI.Uint64_encode,
    ABI.Uint64_decode.
  unfold mbind, Exec_bind, mret, Exec_ret, result_bind. simpl.
  destruct (boxes s !! sender env) as [g|] eqn:Hg; simpl; [done|].
  destruct (boxes s !! votes (proposer ++ AVM.Itob proposal_id))
    as [b|] eqn:Hb; simpl.
  - rewrite Hb.
    destruct (AVM.Btoi b) as [e|current]; simpl; [done|].
    destruct (AVM.add current 1) as [e|total]; simpl; [done|].
    rewrite !insert_delete_eq.
    destruct (winning_proposal_votes s <? total); simpl;
      by rewrite insert_delete_eq.
  - rewrite lookup_insert_eq.
    change (AVM.Btoi (AVM.Itob 0)) with (@inr error Z 0). simpl.
    rewrite !insert_delete_eq, insert_insert_eq.
    destruct (winning_proposal_votes s <? 0 + 1); simpl;
      by rewrite insert_delete_eq.
Qed.

Lemma add_proposal_eq env proposal proposal_id mbr_payment s :
  DAO.add_proposal env proposal proposal_id mbr_payment s =
    let key := sender env ++ AVM.Itob proposal_id in
    if bool_decide (receiver mbr_payment = current_application_address env)
    then
      match boxes s !! proposals key with
      | Some _ => inl proposal_exists
      | None =>
          delta ← AVM.minus
                    (minBalance env (<[proposals key := proposal]> (boxes s)))
                    (minBalance env (boxes s));
          if delta <=? amount mbr_payment
          then inr (tt, with_proposal key proposal s)
          else inl payment_below_mbr
      end
    else inl receiver_mismatch.
Proof.
  unfold DAO.add_proposal, DAO.AccountParam_minBalance,
    MapElement.exists_, MapElement.set,
    BoxLen, BoxDelete, BoxPut, Assert, lift, with_proposal,
    ABI.Tuple2_encode, ABI.Tuple2_set, ABI.Uint64_encode.
  unfold mbind, Exec_bind, mret, Exec_ret, result_bind. simpl.
  case_bool_decide; simpl; [|done].
  destruct (boxes s !! proposals (sender env ++ AVM.Itob proposal_id));
    simpl; [done|].
  rewrite insert_delete_eq.
  destruct (AVM.minus _ _) as [e|delta]; simpl; [done|].
  by destruct (delta <=? amount mbr_payment).
Qed.

Lemma mint_eq env s :
  DAO.mint env s =
    match boxes s !! proposals (winning_proposal s) with
    | None => inl (box_not_found (proposals (winning_proposal s)))
    | Some proposal =>
        id ← Minter.mint_nft env proposal;
        inr (AVM.be_decode (AVM.Itob id), s)
    end.
Proof.
  unfold DAO.mint, Minter.call_mint_nft, MapElement.get, BoxGet, lift,
    get_winning_proposal, ABI.Tuple2_encode, ABI.Tuple2_decode.
  unfold mbind, Exec_bind, mret, Exec_ret, result_bind, result_ret. simpl.
  destruct (boxes s !! proposals (winning_proposal s)); simpl; [|done].
  destruct (Minter.mint_nft env _) as [e|id]; simpl; [done|].
  reflexivity.
Qed.

End Programs.

(** ** Box names of the three mappings never coincide *)
Section Names.

Lemma length_votes k : length (votes k) = S (S (length k)).
Proof. reflexivity. Qed.

Lemma length_proposals k : length (proposals k) = S (S (length k)).
Proof. reflexivity. Qed.

Lemma votes_ne_proposals k k' : votes k ≠ proposals k'.
Proof. discriminate. Qed.

Lemma votes_inj k k' : votes k = votes k' → k = k'.
Proof. by intros [=]. Qed.

Lemma proposals_inj k k' : proposals k = proposals k' → k = k'.
Proof. by intros [=]. Qed.

Lemma address_ne_votes a k : is_address a → is_key k → has_voted a ≠ votes k.
Proof.
  unfold is_address, is_key, has_voted. intros Ha Hk ->.
  rewrite length_votes in Ha. lia.
Qed.

Lemma address_ne_proposals a k :
  is_address a → is_key k → has_voted a ≠ proposals k.
Proof.
  unfold is_address, is_key, has_voted. intros Ha Hk ->.
  rewrite length_proposals in Ha. lia.
Qed.

Lemma is_votes_box_votes k : is_key k → is_votes_box (votes k) = true.
Proof.
  unfold is_key, is_votes_box. intros Hk. apply bool_decide_eq_true.
  rewrite length_votes, Hk. done.
Qed.

Lemma is_votes_box_proposals k : is_votes_box (proposals k) = false.
Proof.
  unfold is_votes_box. apply bool_decide_eq_false. by intros [[=] _].
Qed.

Lemma is_votes_box_address a : is_address a → is_votes_box a = false.
Proof.
  unfold is_address, is_votes_box. intros Ha.
  apply bool_decide_eq_false. intros [_ ?]. lia.
Qed.

Lemma is_key_Tuple2 a n : is_address a → is_key (a ++ AVM.Itob n).
Proof.
  unfold is_address, is_key. intros Ha.
  rewrite length_app, length_Itob, Ha. done.
Qed.

End Names.

(** ** Every call is one of the three steps *)
Section Steps.

Lemma vote_count_decode s key b :
  boxes s !! votes key = Some b → vote_count s key = AVM.be_decode b.
Proof. unfold vote_count. by intros ->. Qed.

Lemma vote_accepted env proposer proposal_id s u s' :
  DAO.vote env proposer proposal_id s = inr (u, s') →
  let key := proposer ++ AVM.Itob proposal_id in
  boxes s !! has_voted (sender env) = None ∧
  vote_count s key + 1 ≤ AVM.uint64_max ∧
  s' = with_ballot (sender env) key (vote_count s key + 1) s.
Proof.
  rewrite vote_eq. cbv zeta.
  destruct (boxes s !! has_voted (sender env)); [done|].
  unfold vote_count, mbind, result_bind.
  destruct (boxes s !! votes (proposer ++ AVM.Itob proposal_id)) as [b|].
  - unfold AVM.Btoi. destruct (length b <=? 8)%nat; [|done].
    unfold AVM.add. case_eq (AVM.be_decode b + 1 <=? AVM.uint64_max);
      intros Hle; [|done].
    intros [= <- <-]. apply Z.leb_le in Hle. done.
  - unfold AVM.add. case_eq (0 + 1 <=? AVM.uint64_max);
      intros Hle; [|done].
    intros [= <- <-]. apply Z.leb_le in Hle. done.
Qed.

Lemma add_proposal_accepted env proposal proposal_id mbr_payment s u s' :
  DAO.add_proposal env proposal proposal_id mbr_payment s = inr (u, s') →
  let key := sender env ++ AVM.Itob proposal_id in
  receiver mbr_payment = current_application_address env ∧
  boxes s !! proposals key = None ∧
  s' = with_proposal key proposal s.
Proof.
  rewrite add_proposal_eq. cbv zeta.
  case_bool_decide; [|done].
  destruct (boxes s !! proposals (sender env ++ AVM.Itob proposal_id));
    [done|].
  unfold mbind, result_bind. destruct (AVM.minus _ _) as [e|delta]; [done|].
  destruct (delta <=? amount mbr_payment); [|done].
  by intros [= <- <-].
Qed.

Lemma mint_accepted env s id s' :
  DAO.mint env s = inr (id, s') → s' = s.
Proof.
  rewrite mint_eq.
  destruct (boxes s !! proposals (winning_proposal s)); [|done].
  unfold mbind, result_bind. destruct (Minter.mint_nft env _); [done|].
  by intros [= _ <-].
Qed.

(** The outcome of a call, by cases. *)
Lemma apply_call_cases s c :
  apply_call s c = s ∨
  (∃ env proposal proposal_id mbr_payment,
     c = call_add_proposal env proposal proposal_id mbr_payment ∧
     let key := sender env ++ AVM.Itob proposal_id in
     boxes s !! proposals key = None ∧
     apply_call s c = with_proposal key proposal s) ∨
  (∃ env proposer proposal_id,
     c = call_vote env proposer proposal_id ∧
     let key := proposer ++ AVM.Itob proposal_id in
     boxes s !! has_voted (sender env) = None ∧
     vote_count s key + 1 ≤ AVM.uint64_max ∧
     apply_call s c
       = with_ballot (sender env) key (vote_count s key + 1) s).
Proof.
  unfold apply_call, run.
  destruct c as [env proposal proposal_id mbr_payment
                |env proposer proposal_id|env]; simpl.
  - destruct (DAO.add_proposal _ _ _ _ s) as [e|[u s']] eqn:Hrun; simpl;
      [by left|].
    apply add_proposal_accepted in Hrun as (_ & Hnone & ->).
    right; left. by exists env, proposal, proposal_id, mbr_payment.
  - destruct (DAO.vote _ _ _ s) as [e|[u s']] eqn:Hrun; simpl; [by left|].
    apply vote_accepted in Hrun as (Hnone & Hle & ->).
    right; right. by exists env, proposer, proposal_id.
  - destruct (DAO.mint env s) as [e|[id s']] eqn:Hrun; simpl; [by left|].
    apply mint_accepted in Hrun as ->. by left.
Qed.

Lemma apply_call_step s c : well_formed c → step s (apply_call s c).
Proof.
  intros [Hsender Hc].
  destruct (apply_call_cases s c)
    as [->|[(env & proposal & proposal_id & mbr_payment & -> & Hnone & ->)
           |(env & proposer & proposal_id & -> & Hnone & Hle & ->)]];
    simpl in *.
  - constructor.
  - apply step_proposal; [by apply is_key_Tuple2|done].
  - destruct Hc as [Hproposer _].
    apply step_ballot; [done|by apply is_key_Tuple2|done|done].
Qed.

(** Induction over the calls that led to a state. *)
Lemma reachable_step_ind (P : DAOState → Prop) :
  P DAO.create →
  (∀ s s', reachable s → P s → step s s' → P s') →
  ∀ s, reachable s → P s.
Proof.
  intros Hcreate Hstep s Hs. induction Hs as [|s c Hs IH Hc]; [done|].
  eapply Hstep; [done|done|]. by apply apply_call_step.
Qed.

Lemma apply_calls_step_ind (P : DAOState → Prop) :
  (∀ s s', P s → step s s' → P s') →
  ∀ cs s, Forall well_formed cs → P s → P (apply_calls s cs).
Proof.
  intros Hstep cs. induction cs as [|c cs IH]; intros s Hcs Hs; [done|].
  inversion Hcs; subst. simpl. apply IH; [done|].
  eapply Hstep; [done|]. by apply apply_call_step.
Qed.

End Steps.

(** ** Folding over the boxes *)
Section Folds.

Context {B : Type} (f : bytes → bytes → B → B) (b0 : B).
Hypothesis f_comm :
  ∀ j1 j2 z1 z2 y, f j1 z1 (f j2 z2 y) = f j2 z2 (f j1 z1 y).

Lemma map_fold_insert_fresh (m : gmap bytes bytes) i x :
  m !! i = None → map_fold f b0 (<[i:=x]> m) = f i x (map_fold f b0 m).
Proof. intros. apply map_fold_insert_L; [intros; apply f_comm|done]. Qed.

Lemma map_fold_lookup (m : gmap bytes bytes) i x :
  m !! i = Some x → map_fold f b0 m = f i x (map_fold f b0 (delete i m)).
Proof. intros. apply map_fold_delete_L; [intros; apply f_comm|done]. Qed.

Lemma map_fold_insert_any (m : gmap bytes bytes) i x :
  map_fold f b0 (<[i:=x]> m) = f i x (map_fold f b0 (delete i m)).
Proof.
  rewrite <- insert_delete_eq. apply map_fold_insert_fresh.
  apply lookup_delete_eq.
Qed.

End Folds.

(** ** What each step does to the tallies *)
Section Tallies.

Let fsum (name b : bytes) (acc : Z) : Z :=
  if is_votes_box name then AVM.be_decode b + acc else acc.


Local Lemma fsum_comm j1 j2 z1 z2 y :
  fsum j1 z1 (fsum j2 z2 y) = fsum j2 z2 (fsum j1 z1 y).
Proof.
  unfold fsum. destruct (is_votes_box j1), (is_votes_box j2); lia.
Qed.


Local Lemma fsum_nonneg (m : gmap bytes bytes) : 0 ≤ map_fold fsum 0 m.
Proof.
  apply (map_fold_weak_ind (λ r _, 0 ≤ r)); [done|].
  intros name b m' r _ Hr. unfold fsum.
  pose proof (be_decode_nonneg b). destruct (is_votes_box name); lia.
Qed.

Lemma vote_count_le_total s key :
  is_key key → vote_count s key ≤ vote_total s.
Proof.
  intros Hk. unfold vote_count, vote_total.
  change (map_fold _ 0 (boxes s)) with (map_fold fsum 0 (boxes s)).
  destruct (boxes s !! votes key) as [b|] eqn:Hb; [|apply fsum_nonneg].
  rewrite (map_fold_lookup fsum 0 fsum_comm _ _ _ Hb).
  unfold fsum at 1. rewrite is_votes_box_votes by done.
  pose proof (fsum_nonneg (delete (votes key) (boxes s))). lia.
Qed.


Lemma vote_total_with_proposal key proposal s :
  boxes s !! proposals key = None →
  vote_total (with_proposal key proposal s) = vote_total s.
Proof.
  intros Hnone. unfold vote_total, with_proposal. simpl.
  rewrite (map_fold_insert_fresh fsum 0 fsum_comm) by done.
  unfold fsum. by rewrite is_votes_box_proposals.
Qed.

Section Ballot.

Variables (s : DAOState) (voter key : bytes).
Hypothesis Hvoter : is_address voter.
Hypothesis Hkey : is_key key.
Hypothesis Hfresh : boxes s !! has_voted voter = None.
Hypothesis Hmax : vote_count s key + 1 ≤ AVM.uint64_max.

Local Lemma vote_count_nonneg : 0 ≤ vote_count s key.
Proof.
  unfold vote_count. destruct (boxes s !! votes key); [|done].
  apply be_decode_nonneg.
Qed.

Local Lemma total_uint64 : is_uint64 (vote_count s key + 1).
Proof. pose proof vote_count_nonneg. split; [lia|done]. Qed.

Local Lemma voter_fresh_after_count x :
  <[votes key := x]> (boxes s) !! has_voted voter = None.
Proof.
  rewrite lookup_insert_ne; [done|].
  intros Heq. by eapply address_ne_votes.
Qed.


Lemma vote_total_with_ballot :
  vote_total (with_ballot voter key (vote_count s key + 1) s)
  = vote_total s + 1.
Proof.
  unfold vote_total, with_ballot. simpl.
  rewrite (map_fold_insert_fresh fsum 0 fsum_comm)
    by apply voter_fresh_after_count.
  rewrite (map_fold_insert_any fsum 0 fsum_comm).
  unfold fsum at 1 2.
  rewrite (is_votes_box_address (has_voted voter)) by done.
  rewrite is_votes_box_votes, be_decode_Itob by (done || apply total_uint64).
  unfold vote_count.
  destruct (boxes s !! votes key) as [b|] eqn:Hb.
  - change (map_fold _ 0 (boxes s)) with (map_fold fsum 0 (boxes s)).
    rewrite (map_fold_lookup fsum 0 fsum_comm _ _ _ Hb).
    unfold fsum at 2. rewrite is_votes_box_votes by done. lia.
  - rewrite delete_id by done. unfold fsum. lia.
Qed.

Lemma voters_with_ballot :
  voters (with_ballot voter key (vote_count s key + 1) s)
  = {[voter]} ∪ voters s.
Proof.
  unfold voters, with_ballot, has_voted. simpl.
  rewrite !dom_insert_L. apply set_eq. intros name.
  rewrite elem_of_union, !elem_of_filter, !elem_of_union,
    !elem_of_singleton.
  split.
  - intros [Hlen [->|[->|Hin]]]; [by left| |by right].
    rewrite length_votes in Hlen. unfold is_key in Hkey. lia.
  - intros [->|[Hlen Hin]]; [by split; [|left]|].
    split; [done|]. by right; right.
Qed.

Lemma voter_not_yet : voter ∉ voters s.
Proof.
  unfold voters. intros [_ Hin]%elem_of_filter.
  apply elem_of_dom in Hin as [? Hin]. unfold has_voted in Hfresh.
  congruence.
Qed.

End Ballot.

Lemma voters_with_proposal key proposal s :
  is_key key → voters (with_proposal key proposal s) = voters s.
Proof.
  intros Hkey. unfold voters, with_proposal. simpl.
  rewrite dom_insert_L. apply set_eq. intros name.
  rewrite !elem_of_filter, elem_of_union, elem_of_singleton.
  split.
  - intros [Hlen [->|Hin]]; [|done].
    rewrite length_proposals in Hlen. unfold is_key in Hkey. lia.
  - intros [Hlen Hin]. split; [done|]. by right.
Qed.

End Tallies.

(** ** Invariants of the storage *)
Section Invariants.

Lemma with_ballot_lookup_other voter key total s name :
  name ≠ has_voted voter → name ≠ votes key →
  boxes (with_ballot voter key total s) !! name = boxes s !! name.
Proof.
  intros Hv Hk. unfold with_ballot. simpl.
  by rewrite !lookup_insert_ne.
Qed.

Lemma with_ballot_lookup_votes voter key total s :
  is_address voter → is_key key →
  boxes (with_ballot voter key total s) !! votes key
    = Some (AVM.Itob total).
Proof.
  intros Hv Hk. unfold with_ballot. simpl.
  rewrite lookup_insert_ne by by apply address_ne_votes.
  apply lookup_insert_eq.
Qed.

Lemma with_ballot_leading_gt voter key total s :
  winning_proposal_votes s < total →
  winning_proposal_votes (with_ballot voter key total s) = total ∧
  winning_proposal (with_ballot voter key total s) = key.
Proof.
  intros Hlt%Z.ltb_lt. unfold with_ballot. simpl. by rewrite Hlt.
Qed.

Lemma with_ballot_leading_le voter key total s :
  total ≤ winning_proposal_votes s →
  winning_proposal_votes (with_ballot voter key total s)
    = winning_proposal_votes s ∧
  winning_proposal (with_ballot voter key total s) = winning_proposal s.
Proof.
  intros Hge%Z.ltb_ge. unfold with_ballot. simpl. by rewrite Hge.
Qed.

Lemma step_proposal_kept s s' k proposal :
  step s s' → is_key k →
  boxes s !! proposals k = Some proposal →
  boxes s' !! proposals k = Some proposal.
Proof.
  intros [|key proposal' _ Hnone|voter key Hv Hk _ _] Hkey Hstored;
    [done|..].
  - unfold with_proposal. simpl. rewrite lookup_insert_ne; [done|].
    intros [= ->]. congruence.
  - rewrite with_ballot_lookup_other; [done|..].
    + intros Heq. symmetry in Heq. by eapply address_ne_proposals.
    + intros Heq. symmetry in Heq. by eapply votes_ne_proposals.
Qed.

Lemma step_well_shaped s s' : step s s' → well_shaped s → well_shaped s'.
Proof.
  intros [|key proposal Hk _|voter key Hv Hk _ _] Hs name b; [by apply Hs|..].
  - unfold with_proposal. simpl.
    intros [[<- <-]|[_ Hb]]%lookup_insert_Some; [|by eapply Hs].
    right; right. by exists key.
  - unfold with_ballot. simpl.
    intros [[<- <-]|[_ Hb]]%lookup_insert_Some; [by left|].
    apply lookup_insert_Some in Hb as [[<- <-]|[_ Hb]]; [|by eapply Hs].
    right; left. exists key. by rewrite length_Itob.
Qed.

Lemma reachable_well_shaped s : reachable s → well_shaped s.
Proof.
  revert s. apply reachable_step_ind.
  - intros name b. unfold DAO.create. simpl. by rewrite lookup_empty.
  - intros s s' _ Hs Hstep. by eapply step_well_shaped.
Qed.




Lemma step_pointer_consistent s s' :
  step s s' → pointer_consistent s → pointer_consistent s'.
Proof.
  intros [|key proposal _ Hnone|voter key Hv Hk Hfresh Hmax] Hs; [done|..].
  - destruct Hs as [?|(Hpos & Hwk & Hbox)]; [by left|right].
    unfold with_proposal. simpl. split; [done|]. split; [done|].
    rewrite lookup_insert_ne; [done|]. intros Heq. symmetry in Heq.
    by eapply votes_ne_proposals.
  - pose proof (vote_count_nonneg s key) as Hnn. right.
    destruct (Z.lt_ge_cases (winning_proposal_votes s) (vote_count s key + 1))
      as [Hlt|Hge].
    + destruct (with_ballot_leading_gt voter key _ s Hlt) as [-> ->].
      repeat split; [lia|done|done|]. by apply with_ballot_lookup_votes.
    + destruct (with_ballot_leading_le voter key _ s Hge) as [-> ->].
      destruct Hs as [[Hz _]|(Hpos & Hwk & Hbox)]; [lia|].
      repeat split; [lia|lia|done|].
      rewrite with_ballot_lookup_other; [done|..].
      * intros Heq. symmetry in Heq. by eapply address_ne_votes.
      * intros Heq%votes_inj. subst key.
        rewrite (vote_count_decode _ _ _ Hbox) in Hge.
        rewrite be_decode_Itob in Hge; [lia|]. split; lia.
Qed.

End Invariants.

(** ** The encoding of a proposal and its fields *)
Section ProposalCodec.

Import NFTProposal.

Lemma segment (a b c : bytes) s l :
  s = length a → l = length b → take l (drop s (a ++ b ++ c)) = b.
Proof. intros -> ->. by rewrite drop_app_length, take_app_length. Qed.

Lemma length_uint16 n : length (uint16 n) = 2%nat.
Proof. apply length_be_encode. Qed.

Lemma uint16_decode n :
  Z.of_nat n < 65536 → Z.to_nat (AVM.be_decode (uint16 n)) = n.
Proof.
  intros Hn. unfold uint16. rewrite be_decode_encode.
  rewrite Z.mod_small; [apply Nat2Z.id|]. simpl. lia.
Qed.

Lemma length_String_encode b :
  length (String_encode b) = (2 + length b)%nat.
Proof. unfold String_encode. by rewrite length_app, length_uint16. Qed.

Variable p : t.
Hypothesis Hvalid : valid p.

Let url_at : nat := head_length.
Let name_at : nat := (url_at + 2 + length (url p))%nat.
Let unit_name_at : nat := (name_at + 2 + length (name p))%nat.

Lemma length_encode :
  length (encode p) = (unit_name_at + 2 + length (unit_name p))%nat.
Proof.
  destruct Hvalid as (Hhash & Hreserve & _).
  unfold encode. rewrite !length_app, !length_String_encode, !length_uint16.
  rewrite Hhash, Hreserve. unfold unit_name_at, name_at, url_at, head_length.
  lia.
Qed.

Lemma ExtractUint16_segment a n c s :
  s = length a → Z.of_nat n < 65536 →
  encode p = a ++ uint16 n ++ c →
  AVM.ExtractUint16 (encode p) s = inr n.
Proof.
  intros Hs Hn Henc. unfold AVM.ExtractUint16. rewrite Henc.
  rewrite (segment a (uint16 n) c) by (done || by rewrite length_uint16).
  rewrite uint16_decode by done.
  rewrite !length_app, length_uint16, <- Hs.
  destruct (Nat.leb_spec (s + 2) (s + (2 + length c))); [done|lia].
Qed.

Lemma offsets_fit :
  Z.of_nat url_at < 65536 ∧ Z.of_nat name_at < 65536 ∧
  Z.of_nat unit_name_at < 65536.
Proof.
  destruct Hvalid as (_ & _ & Hfit). rewrite length_encode in Hfit.
  unfold unit_name_at, name_at, url_at in *. lia.
Qed.

Lemma url_offset : AVM.ExtractUint16 (encode p) 0 = inr url_at.
Proof.
  apply (ExtractUint16_segment [] url_at
           (metadata_hash p ++ uint16 name_at ++ uint16 unit_name_at
              ++ reserve p ++ String_encode (url p)
              ++ String_encode (name p) ++ String_encode (unit_name p)));
    [done|apply offsets_fit|done].
Qed.

Lemma name_offset : AVM.ExtractUint16 (encode p) 34 = inr name_at.
Proof.
  destruct Hvalid as (Hhash & _ & _).
  apply (ExtractUint16_segment (uint16 url_at ++ metadata_hash p) name_at
           (uint16 unit_name_at
              ++ reserve p ++ String_encode (url p)
              ++ String_encode (name p) ++ String_encode (unit_name p))).
  - by rewrite length_app, length_uint16, Hhash.
  - apply offsets_fit.
  - unfold encode. by rewrite <- !app_assoc.
Qed.

Lemma unit_name_offset :
  AVM.ExtractUint16 (encode p) 36 = inr unit_name_at.
Proof.
  destruct Hvalid as (Hhash & _ & _).
  apply (ExtractUint16_segment
           (uint16 url_at ++ metadata_hash p ++ uint16 name_at) unit_name_at
           (reserve p ++ String_encode (url p)
              ++ String_encode (name p) ++ String_encode (unit_name p))).
  - by rewrite !length_app, !length_uint16, Hhash.
  - apply offsets_fit.
  - unfold encode. by rewrite <- !app_assoc.
Qed.

Lemma Extract_segment a b c s l :
  s = length a → l = length b →
  encode p = a ++ b ++ c →
  AVM.Extract (encode p) s l = inr b.
Proof.
  intros Hs Hl Henc. unfold AVM.Extract. rewrite Henc.
  rewrite (segment a b c) by done.
  rewrite !length_app, <- Hs, <- Hl.
  destruct (Nat.leb_spec (s + l) (s + (l + length c))); [done|lia].
Qed.

Lemma Substring_segment a b c s e :
  s = length a → e = (s + length b)%nat →
  encode p = a ++ b ++ c →
  AVM.Substring (encode p) s e = inr b.
Proof.
  intros Hs He Henc. unfold AVM.Substring. rewrite Henc.
  rewrite (segment a b c) by lia.
  rewrite !length_app, <- Hs.
  destruct (Nat.leb_spec s e); [|lia].
  destruct (Nat.leb_spec e (s + (length b + length c))); [done|lia].
Qed.

Lemma Suffix_segment a b s :
  s = length a → encode p = a ++ b → AVM.Suffix (encode p) s = inr b.
Proof.
  intros Hs Henc. unfold AVM.Suffix. rewrite Henc, length_app, <- Hs.
  destruct (Nat.leb_spec s (s + length b)); [|lia].
  by rewrite drop_app_length'.
Qed.

Lemma Suffix_String_encode b : AVM.Suffix (String_encode b) 2 = inr b.
Proof.
  unfold AVM.Suffix. rewrite length_String_encode.
  destruct (Nat.leb_spec 2 (2 + length b)); [|lia].
  unfold String_encode. rewrite drop_app_length'; [done|].
  by rewrite length_uint16.
Qed.

Let head : bytes :=
  uint16 url_at ++ metadata_hash p ++ uint16 name_at ++ uint16 unit_name_at
    ++ reserve p.

Lemma length_head : length head = head_length.
Proof.
  destruct Hvalid as (Hhash & Hreserve & _). unfold head.
  by rewrite !length_app, !length_uint16, Hhash, Hreserve.
Qed.

Lemma get_metadata_hash_encode :
  get_metadata_hash (encode p) = inr (metadata_hash p).
Proof.
  destruct Hvalid as (Hhash & _ & _).
  apply (Extract_segment (uint16 url_at) (metadata_hash p)
           (uint16 name_at ++ uint16 unit_name_at
              ++ reserve p ++ String_encode (url p)
              ++ String_encode (name p) ++ String_encode (unit_name p)));
    [by rewrite length_uint16|done|done].
Qed.

Lemma get_reserve_encode : get_reserve (encode p) = inr (reserve p).
Proof.
  destruct Hvalid as (Hhash & Hreserve & _).
  apply (Extract_segment
           (uint16 url_at ++ metadata_hash p ++ uint16 name_at
              ++ uint16 unit_name_at)
           (reserve p)
           (String_encode (url p)
              ++ String_encode (name p) ++ String_encode (unit_name p))).
  - by rewrite !length_app, !length_uint16, Hhash.
  - done.
  - unfold encode. by rewrite <- !app_assoc.
Qed.

Lemma get_url_encode : get_url (encode p) = inr (url p).
Proof.
  unfold get_url. rewrite url_offset, name_offset.
  unfold mbind, result_bind.
  rewrite (Substring_segment head (String_encode (url p))
             (String_encode (name p) ++ String_encode (unit_name p))).
  - apply Suffix_String_encode.
  - by rewrite length_head.
  - rewrite length_String_encode. unfold name_at. lia.
  - unfold encode, head. by rewrite <- !app_assoc.
Qed.

Lemma get_name_encode : get_name (encode p) = inr (name p).
Proof.
  unfold get_name. rewrite name_offset, unit_name_offset.
  unfold mbind, result_bind.
  rewrite (Substring_segment (head ++ String_encode (url p))
             (String_encode (name p)) (String_encode (unit_name p))).
  - apply Suffix_String_encode.
  - rewrite length_app, length_head, length_String_encode.
    unfold name_at, url_at. lia.
  - rewrite length_String_encode. unfold unit_name_at. lia.
  - unfold encode, head. by rewrite <- !app_assoc.
Qed.

Lemma get_unit_name_encode : get_unit_name (encode p) = inr (unit_name p).
Proof.
  unfold get_unit_name. rewrite unit_name_offset.
  unfold mbind, result_bind.
  rewrite (Suffix_segment
             (head ++ String_encode (url p) ++ String_encode (name p))
             (String_encode (unit_name p))).
  - apply Suffix_String_encode.
  - rewrite !length_app, length_head, !length_String_encode.
    unfold unit_name_at, name_at, url_at. lia.
  - unfold encode, head. by rewrite <- !app_assoc.
Qed.

Lemma mint_nft_encode env :
  Minter.mint_nft env (encode p) =
    match created_asset_id env
            {| config_asset_name := name p;
               config_asset_unit_name := unit_name p;
               config_asset_reserve := reserve p;
               config_asset_url := url p;
               config_asset_metadata_hash := metadata_hash p;
               config_asset_total := 1;
               fee := 0 |} with
    | Some id => inr id
    | None => inl asset_config_rejected
    end.
Proof.
  unfold Minter.mint_nft.
  rewrite get_name_encode, get_unit_name_encode, get_reserve_encode,
    get_url_encode, get_metadata_hash_encode.
  reflexivity.
Qed.

End ProposalCodec.

(** * The claims *)

(** ** Ballot guard *)
Section BallotGuard.

Lemma apply_call_box_persists s c name :
  is_Some (boxes s !! name) → is_Some (boxes (apply_call s c) !! name).
Proof.
  intros Hname.
  destruct (apply_call_cases s c)
    as [->|[(env & proposal & proposal_id & mbr_payment & _ & _ & ->)
           |(env & proposer & proposal_id & _ & _ & _ & ->)]]; [done|..].
  - unfold with_proposal. simpl. rewrite lookup_insert_is_Some'. auto.
  - unfold with_ballot. simpl. rewrite !lookup_insert_is_Some'. auto.
Qed.

Lemma apply_calls_box_persists cs s name :
  is_Some (boxes s !! name) → is_Some (boxes (apply_calls s cs) !! name).
Proof.
  revert s. induction cs as [|c cs IH]; intros s Hname; [done|].
  simpl. apply IH. by apply apply_call_box_persists.
Qed.

Lemma vote_guard_set env proposer proposal_id s u s' :
  DAO.vote env proposer proposal_id s = inr (u, s') →
  is_Some (boxes s' !! has_voted (sender env)).
Proof.
  intros (_ & _ & ->)%vote_accepted. unfold with_ballot. simpl.
  rewrite lookup_insert_eq. eauto.
Qed.

Lemma vote_guarded env proposer proposal_id s :
  is_Some (boxes s !! has_voted (sender env)) →
  DAO.vote env proposer proposal_id s = inl has_already_voted.
Proof. intros [g Hg]. rewrite vote_eq. cbv zeta. by rewrite Hg. Qed.

End BallotGuard.

(** C1. Once a vote of an identity has been accepted, every later vote of
    that identity, for the same key or another one and after any further
    calls, is rejected by the ballot-guard assertion, and the rejected
    call leaves the whole storage, hence every vote count, as it was. *)
Theorem double_vote_rejected
    s env proposer proposal_id u s1 cs env' proposer' proposal_id' :
  DAO.vote env proposer proposal_id s = inr (u, s1) →
  sender env' = sender env →
  let s2 := apply_calls s1 cs in
  DAO.vote env' proposer' proposal_id' s2 = inl has_already_voted ∧
  apply_call s2 (call_vote env' proposer' proposal_id') = s2 ∧
  ∀ key, vote_count (apply_call s2 (call_vote env' proposer' proposal_id')) key
         = vote_count s2 key.
Proof.
  intros Hvote Hsender s2.
  assert (Hrej : DAO.vote env' proposer' proposal_id' s2
                 = inl has_already_voted).
  { apply vote_guarded. rewrite Hsender. apply apply_calls_box_persists.
    by eapply vote_guard_set. }
  assert (Hsame : apply_call s2 (call_vote env' proposer' proposal_id') = s2).
  { unfold apply_call, run. by rewrite Hrej. }
  split; [done|]. split; [done|]. intros key. by rewrite Hsame.
Qed.

Lemma double_vote_rejected_witness :
  let s1 := apply_call DAO.create (call_vote (sample_env "a") (account "p") 0) in
  let s2 := apply_calls s1 [call_vote (sample_env "b") (account "p") 0;
                            call_mint (sample_env "c")] in
  DAO.vote (sample_env "a") (account "q") 7 s2 = inl has_already_voted ∧
  apply_call s2 (call_vote (sample_env "a") (account "q") 7) = s2 ∧
  ∀ key, vote_count (apply_call s2 (call_vote (sample_env "a") (account "q") 7))
           key = vote_count s2 key.
Proof.
  intros s1 s2.
  apply (double_vote_rejected DAO.create (sample_env "a") (account "p") 0 tt s1
           [call_vote (sample_env "b") (account "p") 0;
            call_mint (sample_env "c")]
           (sample_env "a") (account "q") 7).
  - vm_compute. reflexivity.
  - reflexivity.
Defined.

(** ** Vote tally and winner pointer *)
Section Tally.

Lemma reachable_pointer_consistent s : reachable s → pointer_consistent s.
Proof.
  revert s. apply reachable_step_ind; [by left|].
  intros s s' _ Hs Hstep. by eapply step_pointer_consistent.
Qed.

Lemma with_ballot_vote_count voter key total s :
  is_address voter → is_key key → is_uint64 total →
  vote_count (with_ballot voter key total s) key = total.
Proof.
  intros Hv Hk Ht. unfold vote_count.
  rewrite with_ballot_lookup_votes by done. by apply be_decode_Itob.
Qed.

Lemma with_ballot_vote_count_other voter key total s k :
  is_address voter → is_key k → k ≠ key →
  vote_count (with_ballot voter key total s) k = vote_count s k.
Proof.
  intros Hv Hk Hne. unfold vote_count.
  rewrite with_ballot_lookup_other; [done|..].
  - intros Heq. symmetry in Heq. by eapply address_ne_votes.
  - by intros ?%votes_inj.
Qed.

Lemma step_tally s s' :
  step s s' →
  vote_total s = Z.of_nat (size (voters s)) →
  vote_total s' = Z.of_nat (size (voters s')).
Proof.
  intros [|key proposal Hk Hnone|voter key Hv Hk Hfresh Hmax] Hs; [done|..].
  - by rewrite vote_total_with_proposal, voters_with_proposal.
  - rewrite vote_total_with_ballot, voters_with_ballot by done.
    rewrite size_union, size_singleton; [lia|].
    apply disjoint_singleton_l. by apply voter_not_yet.
Qed.

Lemma reachable_tally s :
  reachable s → vote_total s = Z.of_nat (size (voters s)).
Proof.
  revert s. apply reachable_step_ind; [by vm_compute|].
  intros s s' _ IH Hstep. by eapply step_tally.
Qed.

(** No count exceeds the number of identities that have voted, so a
    count can only reach the largest uint64 after that many ballots. *)
Lemma vote_count_le_voters s key :
  reachable s → is_key key → vote_count s key ≤ Z.of_nat (size (voters s)).
Proof.
  intros Hs Hk. rewrite <- reachable_tally by done.
  by apply vote_count_le_total.
Qed.

(** Calls of the declared types are among the calls the program can
    receive, so every [reachable] state is [attainable]. *)
Lemma well_formed_admissible c : well_formed c → admissible c.
Proof. destruct c; unfold well_formed, admissible; naive_solver. Qed.

Lemma reachable_attainable s : reachable s → attainable s.
Proof.
  induction 1 as [|s c _ IH Hc]; [apply attainable_create|].
  apply attainable_call; [done|by apply well_formed_admissible].
Qed.

(** A proposer of 22 bytes gives a key of 30 bytes, and the count box of
    that key is named like the [has_voted] box of an address. *)
Lemma short_proposer_count_box proposer proposal_id :
  length proposer = 22%nat →
  is_address (votes (ABI.Tuple2_set proposer proposal_id)).
Proof.
  intros Hp. unfold is_address, ABI.Tuple2_set.
  rewrite length_votes, length_app, length_Itob, Hp. reflexivity.
Qed.

End Tally.



(** C2, as stated, fails.  [vote] accepts a [proposer] of 22 bytes, and
    the count box of its key is then the [has_voted] box of the account
    whose address is that box name.  When that account casts the vote,
    the program stores the count 1, makes it the leading count, and then
    overwrites the box with the guard byte 0x80: after this one accepted
    vote the leading count is 1, the count stored for the only key voted
    on reads 128, and the leading count is neither that count nor the
    largest count of the 40-byte keys.  A second accepted vote for the
    key, by another account, reads 128 and makes 129 the leading count. *)
Lemma leading_count_differs_from_stored_count :
  let s := apply_call DAO.create
             (call_vote (sample_env_of short_key_account) short_proposer 7) in
  let s' := apply_call s (call_vote (sample_env "b") short_proposer 7) in
  attainable s ∧
  DAO.vote (sample_env_of short_key_account) short_proposer 7 DAO.create
    = inr (tt, s) ∧
  winning_proposal s = short_key ∧
  winning_proposal_votes s = 1 ∧
  boxes s !! votes short_key = Some (ABI.Bool_encode true) ∧
  vote_count s short_key = 128 ∧
  ¬ vote_count s short_key ≤ winning_proposal_votes s ∧
  winning_proposal_votes s ≠ max_vote_count s ∧
  DAO.vote (sample_env "b") short_proposer 7 s = inr (tt, s') ∧
  winning_proposal_votes s' = 129 ∧
  size (voters s') = 2%nat.
Proof.
  intros s s'. split.
  - apply attainable_call; [apply attainable_create|by vm_compute].
  - repeat split; try (vm_compute; reflexivity); by vm_compute.
Qed.



(** C3, as stated, fails.  One accepted vote for a [proposer] of 22
    bytes writes two boxes with 32-byte names: the [has_voted] box of
    the sender, and the count box of the key, which is the [has_voted]
    box of the account of that address.  The one ballot is counted once
    (the key reads 1, and no 40-byte key has a count), yet the guard is
    set for two identities, one of which never sent a transaction and
    whose vote is now rejected. *)
Lemma one_ballot_sets_two_guards :
  let s := apply_call DAO.create
             (call_vote (sample_env "a") short_proposer 7) in
  attainable s ∧
  DAO.vote (sample_env "a") short_proposer 7 DAO.create = inr (tt, s) ∧
  vote_count s short_key = 1 ∧
  vote_total s = 0 ∧
  is_address short_key_account ∧
  short_key_account ≠ account "a" ∧
  MapElement.exists_ (has_voted (account "a")) s = inr (true, s) ∧
  MapElement.exists_ (has_voted short_key_account) s = inr (true, s) ∧
  voters s = {[account "a"; short_key_account]} ∧
  size (voters s) = 2%nat ∧
  vote_total s ≠ Z.of_nat (size (voters s)) ∧
  DAO.vote (sample_env_of short_key_account) (account "p") 0 s
    = inl has_already_voted.
Proof.
  intros s. split.
  - apply attainable_call; [apply attainable_create|by vm_compute].
  - repeat split; try (vm_compute; reflexivity); by vm_compute.
Qed.

(** ** Proposal registry *)
Section Registry.

Lemma apply_calls_proposal_kept cs s key proposal :
  is_key key → Forall well_formed cs →
  boxes s !! proposals key = Some proposal →
  boxes (apply_calls s cs) !! proposals key = Some proposal.
Proof.
  intros Hk Hcs Hstored.
  apply (apply_calls_step_ind
           (λ s, boxes s !! proposals key = Some proposal)); [|done..].
  intros s0 s' Hs0 Hstep. by eapply step_proposal_kept.
Qed.

Lemma get_stored name content s :
  boxes s !! name = Some content →
  MapElement.get name s = inr (content, s).
Proof.
  intros Hstored. unfold MapElement.get, BoxGet, mbind, Exec_bind. simpl.
  by rewrite Hstored.
Qed.

Lemma add_proposal_duplicate env proposal proposal_id mbr_payment s :
  receiver mbr_payment = current_application_address env →
  is_Some (boxes s !! proposals (sender env ++ AVM.Itob proposal_id)) →
  DAO.add_proposal env proposal proposal_id mbr_payment s
    = inl proposal_exists.
Proof.
  intros Hreceiver [p Hp]. rewrite add_proposal_eq. cbv zeta.
  rewrite bool_decide_true by done. by rewrite Hp.
Qed.

End Registry.

(** C4. After a submission at a key was accepted, every later submission
    at the same key (same sender and sequence number, whatever proposal
    and payment), after any further calls, is rejected, and the key
    still reads the proposal stored first.  The rejection is the one of
    the key-is-free assertion whenever the payment is addressed to the
    application, as every submission must be; a payment to someone else
    is turned down by the receiver assertion before the key is looked
    at. *)
Theorem duplicate_proposal_rejected
    s env p1 proposal_id f u s1 cs env' p2 f' :
  well_formed (call_add_proposal env p1 proposal_id f) →
  DAO.add_proposal env p1 proposal_id f s = inr (u, s1) →
  Forall well_formed cs →
  sender env' = sender env →
  let key := sender env ++ AVM.Itob proposal_id in
  let s2 := apply_calls s1 cs in
  let s3 := apply_call s2 (call_add_proposal env' p2 proposal_id f') in
  DAO.add_proposal env' p2 proposal_id f' s2
    = inl (if bool_decide (receiver f' = current_application_address env')
           then proposal_exists else receiver_mismatch) ∧
  s3 = s2 ∧
  MapElement.get (proposals key) s3 = inr (p1, s3).
Proof.
  intros [Hsender _] Hadd Hcs Hsame key s2 s3. simpl in Hsender.
  apply add_proposal_accepted in Hadd as (_ & _ & ->). fold key in s2.
  assert (Hk : is_key key) by by apply is_key_Tuple2.
  assert (Hkept : boxes s2 !! proposals key = Some p1).
  { apply apply_calls_proposal_kept; [done..|].
    unfold with_proposal. simpl. apply lookup_insert_eq. }
  assert (Hrej : DAO.add_proposal env' p2 proposal_id f' s2
                 = inl (if bool_decide
                             (receiver f' = current_application_address env')
                        then proposal_exists else receiver_mismatch)).
  { case_bool_decide as Hreceiver.
    - apply add_proposal_duplicate; [done|]. rewrite Hsame. fold key. eauto.
    - rewrite add_proposal_eq. cbv zeta. by rewrite bool_decide_false. }
  assert (Hs3 : s3 = s2).
  { unfold s3, apply_call, run. by rewrite Hrej. }
  split; [done|]. split; [done|]. rewrite Hs3. by apply get_stored.
Qed.

Lemma duplicate_proposal_rejected_witness :
  let first := call_add_proposal (sample_env "a")
                 (NFTProposal.encode sample_proposal) 0
                 (mkPayment (account "D") 100000) in
  let s1 := apply_call DAO.create first in
  let s2 := apply_calls s1 [call_vote (sample_env "b") (account "a") 0] in
  let s3 := apply_call s2
              (call_add_proposal (sample_env "a") ["x"]%char 0
                 (mkPayment (account "D") 100000)) in
  DAO.add_proposal (sample_env "a") ["x"]%char 0
    (mkPayment (account "D") 100000) s2 = inl proposal_exists ∧
  s3 = s2 ∧
  MapElement.get (proposals (account "a" ++ AVM.Itob 0)) s3
    = inr (NFTProposal.encode sample_proposal, s3).
Proof.
  intros first s1 s2 s3.
  apply (duplicate_proposal_rejected DAO.create (sample_env "a")
           (NFTProposal.encode sample_proposal) 0
           (mkPayment (account "D") 100000) tt s1
           [call_vote (sample_env "b") (account "a") 0]
           (sample_env "a") ["x"]%char (mkPayment (account "D") 100000)).
  - by vm_compute.
  - vm_compute. reflexivity.
  - repeat constructor; by vm_compute.
  - reflexivity.
Defined.

(** C5. A submission at a free key whose payment is below the measured
    growth of the minimum balance (the requirement after the write minus
    the requirement before it) is rejected by the funding assertion, and
    nothing is written: the storage is what it was and the key is still
    free. *)
Theorem underfunded_proposal_rejected s env proposal proposal_id f :
  let key := sender env ++ AVM.Itob proposal_id in
  let delta := minBalance env (<[proposals key := proposal]> (boxes s))
               - minBalance env (boxes s) in
  receiver f = current_application_address env →
  boxes s !! proposals key = None →
  0 ≤ amount f < delta →
  let s' := apply_call s (call_add_proposal env proposal proposal_id f) in
  DAO.add_proposal env proposal proposal_id f s = inl payment_below_mbr ∧
  s' = s ∧
  boxes s' !! proposals key = None.
Proof.
  intros key delta Hreceiver Hfree [Hnn Hlt] s'.
  assert (Hrej : DAO.add_proposal env proposal proposal_id f s
                 = inl payment_below_mbr).
  { rewrite add_proposal_eq. cbv zeta. fold key.
    rewrite bool_decide_true, Hfree by done.
    unfold AVM.minus, mbind, result_bind.
    destruct (Z.leb_spec (minBalance env (boxes s))
                (minBalance env (<[proposals key := proposal]> (boxes s))))
      as [_|Hunder]; [|unfold delta in Hlt; lia].
    fold delta.
    destruct (Z.leb_spec delta (amount f)); [lia|done]. }
  assert (Hs' : s' = s).
  { unfold s', apply_call, run. by rewrite Hrej. }
  by rewrite Hs'.
Qed.

Lemma underfunded_proposal_rejected_witness :
  let env := sample_env "a" in
  let proposal := NFTProposal.encode sample_proposal in
  let key := account "a" ++ AVM.Itob 0 in
  let delta := sample_minBalance (<[proposals key := proposal]> ∅)
               - sample_minBalance ∅ in
  let f := mkPayment (account "D") (delta - 1) in
  let s' := apply_call DAO.create (call_add_proposal env proposal 0 f) in
  DAO.add_proposal env proposal 0 f DAO.create = inl payment_below_mbr ∧
  s' = DAO.create ∧
  boxes s' !! proposals key = None.
Proof.
  intros env proposal key delta f s'.
  apply (underfunded_proposal_rejected DAO.create env proposal 0 f).
  - reflexivity.
  - reflexivity.
  - by vm_compute.
Defined.

(** C6. A proposal stored at a key stays there: after any further calls
    (submissions, votes, mints, accepted or rejected) the key still reads
    the proposal that was stored. *)
Theorem stored_proposal_immutable s key proposal cs :
  is_key key →
  boxes s !! proposals key = Some proposal →
  Forall well_formed cs →
  let s' := apply_calls s cs in
  boxes s' !! proposals key = Some proposal ∧
  MapElement.get (proposals key) s' = inr (proposal, s').
Proof.
  intros Hk Hstored Hcs s'.
  assert (Hkept : boxes s' !! proposals key = Some proposal)
    by by apply apply_calls_proposal_kept.
  split; [done|]. by apply get_stored.
Qed.

Lemma stored_proposal_immutable_witness :
  let proposal := NFTProposal.encode sample_proposal in
  let key := account "a" ++ AVM.Itob 0 in
  let s := apply_call DAO.create
             (call_add_proposal (sample_env "a") proposal 0
                (mkPayment (account "D") 100000)) in
  let s' := apply_calls s
              [call_add_proposal (sample_env "a") ["x"]%char 0
                 (mkPayment (account "D") 100000);
               call_add_proposal (sample_env "b") ["y"]%char 0
                 (mkPayment (account "D") 100000);
               call_vote (sample_env "b") (account "a") 0;
               call_mint (sample_env "c")] in
  boxes s' !! proposals key = Some proposal ∧
  MapElement.get (proposals key) s' = inr (proposal, s').
Proof.
  intros proposal key s.
  apply (stored_proposal_immutable s key proposal).
  - reflexivity.
  - by vm_compute.
  - repeat constructor; by vm_compute.
Defined.

(** ** Minting bridge *)
Section Bridge.

Lemma apply_call_mint env s : apply_call s (call_mint env) = s.
Proof.
  unfold apply_call, run.
  destruct (DAO.mint env s) as [e|[id s']] eqn:Hrun; simpl; [done|].
  by apply mint_accepted in Hrun.
Qed.

Lemma apply_calls_mint envs s : apply_calls s (call_mint <$> envs) = s.
Proof.
  induction envs as [|env envs IH]; [done|].
  simpl. by rewrite apply_call_mint.
Qed.

Lemma reachable_no_bare_prefix_box s :
  reachable s → boxes s !! proposals [] = None.
Proof.
  intros Hs%reachable_well_shaped.
  destruct (boxes s !! proposals []) as [b|] eqn:Hb; [|done].
  destruct (Hs _ _ Hb) as [Ha|[(k & Hk & Heq & _)|(k & Hk & Heq)]].
  - done.
  - done.
  - apply proposals_inj in Heq. by subst k.
Qed.

Lemma reachable_stored_pointer s :
  reachable_voting_stored s →
  winning_proposal s = [] ∨
  is_Some (boxes s !! proposals (winning_proposal s)).
Proof.
  induction 1 as [|s c _ IH Hc Hnames]; [by left|].
  destruct (apply_call_cases s c)
    as [->|[(env & proposal & proposal_id & mbr_payment & _ & _ & ->)
           |(env & proposer & proposal_id & -> & _ & _ & ->)]]; [done|..].
  - destruct IH as [?|IH]; [by left|right].
    unfold with_proposal. simpl. rewrite lookup_insert_is_Some'. auto.
  - unfold with_ballot. simpl in *.
    destruct (winning_proposal_votes s <? _).
    + right. rewrite !lookup_insert_is_Some'. auto.
    + destruct IH as [?|IH]; [by left|right].
      rewrite !lookup_insert_is_Some'. auto.
Qed.

End Bridge.

(** C7. In a reachable state whose winner pointer still holds its empty
    default, [mint] is rejected: the empty pointer decodes to the empty
    key, no box is named by the bare prefix "p-", and the assertion of
    the proposal fetch fails with that name.  [mint] writes nothing, so
    after any number of [mint] calls the storage, and with it the
    proposal the next [mint] fetches and its outcome, is what it was. *)
Theorem mint_without_winner_rejected s env :
  reachable s →
  (winning_proposal s = [] →
   DAO.mint env s = inl (box_not_found (proposals []))) ∧
  ∀ envs,
    let s' := apply_calls s (call_mint <$> envs) in
    s' = s ∧
    boxes s' !! proposals (winning_proposal s')
      = boxes s !! proposals (winning_proposal s) ∧
    ∀ env', DAO.mint env' s' = DAO.mint env' s.
Proof.
  intros Hs. split.
  - intros Hempty. rewrite mint_eq, Hempty.
    by rewrite reachable_no_bare_prefix_box.
  - intros envs s'. unfold s'. by rewrite apply_calls_mint.
Qed.

Lemma mint_without_winner_rejected_witness :
  let s := apply_call DAO.create
             (call_add_proposal (sample_env "a")
                (NFTProposal.encode sample_proposal) 0
                (mkPayment (account "D") 100000)) in
  DAO.mint (sample_env "b") s = inl (box_not_found (proposals [])) ∧
  ∀ envs,
    let s' := apply_calls s (call_mint <$> envs) in
    s' = s ∧
    boxes s' !! proposals (winning_proposal s')
      = boxes s !! proposals (winning_proposal s) ∧
    ∀ env', DAO.mint env' s' = DAO.mint env' s.
Proof.
  intros s.
  assert (Hs : reachable s).
  { apply reachable_call; [apply reachable_create|by vm_compute]. }
  destruct (mint_without_winner_rejected s (sample_env "b") Hs)
    as [Hfails Hsame].
  split; [|done]. apply Hfails. by vm_compute.
Defined.

(** C8, as the program has it.  When every vote so far named a key that
    already had a stored proposal, a non-empty winner pointer names a key
    whose proposal exists, and the fetch of [mint] finds it. *)
Theorem winner_of_stored_proposals_exists s :
  reachable_voting_stored s →
  winning_proposal s ≠ [] →
  ∃ proposal,
    boxes s !! proposals (winning_proposal s) = Some proposal ∧
    MapElement.get (proposals (winning_proposal s)) s = inr (proposal, s).
Proof.
  intros Hs Hne.
  destruct (reachable_stored_pointer s Hs) as [?|[proposal Hp]]; [done|].
  exists proposal. split; [done|]. by apply get_stored.
Qed.

Lemma winner_of_stored_proposals_exists_witness :
  let s := apply_calls DAO.create
             [call_add_proposal (sample_env "a")
                (NFTProposal.encode sample_proposal) 0
                (mkPayment (account "D") 100000);
              call_vote (sample_env "b") (account "a") 0] in
  ∃ proposal,
    boxes s !! proposals (winning_proposal s) = Some proposal ∧
    MapElement.get (proposals (winning_proposal s)) s = inr (proposal, s).
Proof.
  intros s. apply (winner_of_stored_proposals_exists s).
  - do 2 (apply reachable_stored_call; [|by vm_compute|vm_compute; eauto]).
    apply reachable_stored_create.
  - by vm_compute.
Defined.

(** C8, as stated, fails: one vote for a key at which nothing was
    submitted leaves a reachable state whose pointer is not empty and
    names a key with no proposal, and [mint] is rejected by the fetch. *)
Lemma winner_without_proposal :
  let s := apply_call DAO.create
             (call_vote (sample_env "a") (account "p") 0) in
  reachable s ∧
  winning_proposal s = account "p" ++ AVM.Itob 0 ∧
  winning_proposal s ≠ [] ∧
  boxes s !! proposals (winning_proposal s) = None ∧
  DAO.mint (sample_env "b") s
    = inl (box_not_found (proposals (winning_proposal s))).
Proof.
  intros s. split; [|by vm_compute].
  apply reachable_call; [apply reachable_create|by vm_compute].
Qed.

(** C9. When the key the winner pointer names holds the encoding of a
    proposal, [mint] has the minter submit one AssetConfig transaction
    whose name, unit name, reserve, url and metadata hash are those of
    the stored proposal, with total 1 (and fee 0), and returns the asset
    id the ledger assigned to it; if the ledger rejects the transaction,
    so is [mint]. *)
Theorem mint_hands_over_winning_proposal s env p :
  NFTProposal.valid p →
  boxes s !! proposals (winning_proposal s) = Some (NFTProposal.encode p) →
  let config :=
    {| config_asset_name := NFTProposal.name p;
       config_asset_unit_name := NFTProposal.unit_name p;
       config_asset_reserve := NFTProposal.reserve p;
       config_asset_url := NFTProposal.url p;
       config_asset_metadata_hash := NFTProposal.metadata_hash p;
       config_asset_total := 1;
       fee := 0 |} in
  (∀ id, created_asset_id env config = Some id → is_uint64 id →
         DAO.mint env s = inr (id, s)) ∧
  (created_asset_id env config = None →
   DAO.mint env s = inl asset_config_rejected).
Proof.
  intros Hvalid Hstored config.
  assert (Hmint : DAO.mint env s =
                  match created_asset_id env config with
                  | Some id => inr (AVM.be_decode (AVM.Itob id), s)
                  | None => inl asset_config_rejected
                  end).
  { rewrite mint_eq, Hstored, mint_nft_encode by done. fold config.
    by destruct (created_asset_id env config). }
  split.
  - intros id Hid Hrange. by rewrite Hmint, Hid, be_decode_Itob.
  - intros Hnone. by rewrite Hmint, Hnone.
Qed.

Lemma mint_hands_over_winning_proposal_witness :
  let s := apply_calls DAO.create
             [call_add_proposal (sample_env "a")
                (NFTProposal.encode sample_proposal) 0
                (mkPayment (account "D") 100000);
              call_vote (sample_env "b") (account "a") 0] in
  let env :=
    {| sender := account "c";
       current_application_address := account "D";
       minBalance := sample_minBalance;
       created_asset_id := λ config,
         if bool_decide (config_asset_name config = ["A"; "r"; "t"]%char ∧
                         config_asset_total config = 1)
         then Some 1001 else None |} in
  DAO.mint env s = inr (1001, s).
Proof.
  intros s env.
  apply (mint_hands_over_winning_proposal s env sample_proposal).
  - by vm_compute.
  - by vm_compute.
  - reflexivity.
  - by vm_compute.
Defined.

(** C10. [vote] never looks at the [proposals] mapping.  In a reachable
    state, a vote of a sender whose ballot guard is not set is accepted
    whatever key it names, registered or not (the count of the key being
    below the largest uint64, so that adding one does not overflow, as
    it is until 2^64 - 1 identities have voted): it
    stores the incremented count for that key, leaves the [proposals]
    box of the key as it was, present or absent, and when the key's
    count was not below the leading count the winner pointer now names
    that key. *)
Theorem vote_needs_no_proposal s env proposer proposal_id :
  reachable s →
  well_formed (call_vote env proposer proposal_id) →
  boxes s !! has_voted (sender env) = None →
  let key := proposer ++ AVM.Itob proposal_id in
  vote_count s key < AVM.uint64_max →
  ∃ s',
    DAO.vote env proposer proposal_id s = inr (tt, s') ∧
    boxes s' !! votes key = Some (AVM.Itob (vote_count s key + 1)) ∧
    boxes s' !! proposals key = boxes s !! proposals key ∧
    (winning_proposal_votes s ≤ vote_count s key →
     winning_proposal s' = key).
Proof.
  intros Hs [Hsender [Hproposer _]] Hfresh key Hbelow. simpl in Hsender.
  assert (Hk : is_key key) by by apply is_key_Tuple2.
  exists (with_ballot (sender env) key (vote_count s key + 1) s).
  split; [|split; [|split]].
  - rewrite vote_eq. cbv zeta. fold key. rewrite Hfresh.
    unfold vote_count in *.
    destruct (boxes s !! votes key) as [b|] eqn:Hb.
    + destruct (reachable_well_shaped s Hs _ _ Hb)
        as [Ha|[(k & _ & _ & Hlen)|(k & _ & Heq)]].
      * exfalso. by apply (address_ne_votes (votes key) key).
      * unfold AVM.Btoi, AVM.add, mbind, result_bind. rewrite Hlen. simpl.
        destruct (Z.leb_spec (AVM.be_decode b + 1) AVM.uint64_max); [done|lia].
      * by destruct (votes_ne_proposals _ _ Heq).
    + unfold AVM.add, mbind, result_bind.
      destruct (Z.leb_spec (0 + 1) AVM.uint64_max); [done|lia].
  - by apply with_ballot_lookup_votes.
  - apply with_ballot_lookup_other.
    + intros Heq. symmetry in Heq.
      by apply (address_ne_proposals (sender env) key).
    + intros Heq. symmetry in Heq. by apply (votes_ne_proposals key key).
  - intros Hle. apply with_ballot_leading_gt. lia.
Qed.

Lemma vote_needs_no_proposal_witness :
  let key := account "p" ++ AVM.Itob 5 in
  boxes DAO.create !! proposals key = None ∧
  ∃ s',
    DAO.vote (sample_env "a") (account "p") 5 DAO.create = inr (tt, s') ∧
    boxes s' !! votes key = Some (AVM.Itob (vote_count DAO.create key + 1)) ∧
    boxes s' !! proposals key = boxes DAO.create !! proposals key ∧
    (winning_proposal_votes DAO.create ≤ vote_count DAO.create key →
     winning_proposal s' = key).
Proof.
  intros key. split; [reflexivity|].
  apply (vote_needs_no_proposal DAO.create (sample_env "a") (account "p") 5).
  - apply reachable_create.
  - by vm_compute.
  - reflexivity.
  - by vm_compute.
Defined.

(** ** A full run

    A submits a proposal at (A, 0) paying exactly the growth of the
    minimum balance; V and W vote for it; V's second vote is rejected;
    [mint] has the proposal minted and returns the id of the asset. *)
Example full_run :
  let A := sample_env "A" in
  let V := sample_env "V" in
  let W := sample_env "W" in
  let proposal := NFTProposal.encode sample_proposal in
  let key := account "A" ++ AVM.Itob 0 in
  let price := sample_minBalance (<[proposals key := proposal]> ∅)
               - sample_minBalance ∅ in
  let s1 := apply_call DAO.create
              (call_add_proposal A proposal 0 (mkPayment (account "D") price)) in
  let s2 := apply_call s1 (call_vote V (account "A") 0) in
  let s3 := apply_call s2 (call_vote W (account "A") 0) in
  boxes s1 !! proposals key = Some proposal ∧
  (vote_count s2 key, winning_proposal_votes s2, winning_proposal s2)
    = (1, 1, key) ∧
  (vote_count s3 key, winning_proposal_votes s3, winning_proposal s3)
    = (2, 2, key) ∧
  DAO.vote V (account "B") 3 s3 = inl has_already_voted ∧
  DAO.mint W s3 = inr (1001, s3).
Proof. by vm_compute. Qed.

(** * Further properties of the programs *)

(** ** Keys *)
Section Keys.

Lemma Itob_inj n n' :
  is_uint64 n → is_uint64 n' → AVM.Itob n = AVM.Itob n' → n = n'.
Proof.
  intros Hn Hn' Heq.
  rewrite <- (be_decode_Itob n), <- (be_decode_Itob n') by done.
  by rewrite Heq.
Qed.

Lemma Tuple2_set_inj a n a' n' :
  is_address a → is_address a' → is_uint64 n → is_uint64 n' →
  ABI.Tuple2_set a n = ABI.Tuple2_set a' n' → a = a' ∧ n = n'.
Proof.
  unfold ABI.Tuple2_set, ABI.Uint64_encode, is_address.
  intros Ha Ha' Hn Hn' Heq.
  apply app_inj_1 in Heq as [-> Hitob]; [|congruence].
  split; [done|]. by apply Itob_inj.
Qed.

End Keys.

(** X2. A key is the sender or proposer address followed by the 8 bytes
    of the sequence number, so two (address, number) pairs name the same
    proposal box, or the same count box, only when they are the same
    pair; and a box of one mapping is never a box of another. *)
Theorem keys_name_distinct_boxes a n a' n' :
  is_address a → is_address a' → is_uint64 n → is_uint64 n' →
  let key := ABI.Tuple2_set a n in
  let key' := ABI.Tuple2_set a' n' in
  (proposals key = proposals key' ↔ a = a' ∧ n = n') ∧
  (votes key = votes key' ↔ a = a' ∧ n = n') ∧
  votes key ≠ proposals key' ∧
  has_voted a ≠ votes key' ∧
  has_voted a ≠ proposals key'.
Proof.
  intros Ha Ha' Hn Hn' key key'.
  assert (Hk' : is_key key') by by apply is_key_Tuple2.
  split; [|split; [|split; [|split]]].
  - split; [|by intros [-> ->]].
    intros Heq%proposals_inj. by apply Tuple2_set_inj.
  - split; [|by intros [-> ->]].
    intros Heq%votes_inj. by apply Tuple2_set_inj.
  - apply votes_ne_proposals.
  - by apply address_ne_votes.
  - by apply address_ne_proposals.
Qed.

Lemma keys_name_distinct_boxes_witness :
  proposals (ABI.Tuple2_set (account "a") 1)
    ≠ proposals (ABI.Tuple2_set (account "b") 1) ∧
  votes (ABI.Tuple2_set (account "a") 1)
    ≠ votes (ABI.Tuple2_set (account "a") 256).
Proof.
  destruct (keys_name_distinct_boxes (account "a") 1 (account "b") 1)
    as ([Hp _] & _); [by vm_compute..|].
  destruct (keys_name_distinct_boxes (account "a") 1 (account "a") 256)
    as (_ & [Hv _] & _); [by vm_compute..|].
  split.
  - intros Heq. by destruct (Hp Heq) as [[=] _].
  - intros Heq. by destruct (Hv Heq) as [_ [=]].
Defined.

(** ** Outcomes of [add_proposal] and [vote] *)
Section Outcomes.

Lemma reachable_votes_canonical s key b :
  reachable s → is_key key → boxes s !! votes key = Some b →
  ∃ n, 1 ≤ n ≤ AVM.uint64_max ∧ b = AVM.Itob n.
Proof.
  intros Hs Hkey. revert s Hs b. apply (reachable_step_ind
    (λ s, ∀ b, boxes s !! votes key = Some b →
               ∃ n, 1 ≤ n ≤ AVM.uint64_max ∧ b = AVM.Itob n)).
  - intros b. unfold DAO.create. simpl. by rewrite lookup_empty.
  - intros s s' _ IH [|k proposal _ _|voter k Hv Hk _ Hmax] b; [by apply IH|..].
    + unfold with_proposal. simpl. rewrite lookup_insert_ne; [by apply IH|].
      intros Heq. symmetry in Heq. by destruct (votes_ne_proposals _ _ Heq).
    + destruct (decide (key = k)) as [->|Hne].
      * rewrite with_ballot_lookup_votes by done. intros [= <-].
        pose proof (vote_count_nonneg s k). exists (vote_count s k + 1).
        split; [lia|done].
      * rewrite with_ballot_lookup_other; [by apply IH|..].
        -- intros Heq. symmetry in Heq. by apply (address_ne_votes voter key).
        -- by intros ?%votes_inj.
Qed.

Lemma reachable_vote_count_range s key :
  reachable s → is_key key → 0 ≤ vote_count s key ≤ AVM.uint64_max.
Proof.
  intros Hs Hkey. unfold vote_count.
  destruct (boxes s !! votes key) as [b|] eqn:Hb.
  - destruct (reachable_votes_canonical s key b Hs Hkey Hb) as (n & Hn & ->).
    rewrite be_decode_Itob by (split; lia). lia.
  - unfold AVM.uint64_max. simpl. lia.
Qed.

(** The outcome of a vote in a reachable state. *)
Lemma vote_reachable_eq s env proposer proposal_id :
  reachable s → is_address proposer →
  let key := proposer ++ AVM.Itob proposal_id in
  DAO.vote env proposer proposal_id s =
    match boxes s !! has_voted (sender env) with
    | Some _ => inl has_already_voted
    | None =>
        if bool_decide (vote_count s key < AVM.uint64_max)
        then inr (tt, with_ballot (sender env) key (vote_count s key + 1) s)
        else inl uint64_overflow
    end.
Proof.
  intros Hs Hproposer key.
  assert (Hk : is_key key) by by apply is_key_Tuple2.
  rewrite vote_eq. cbv zeta. fold key.
  destruct (boxes s !! has_voted (sender env)); [done|].
  unfold vote_count, AVM.add, mbind, result_bind.
  destruct (boxes s !! votes key) as [b|] eqn:Hb.
  - destruct (reachable_votes_canonical s key b Hs Hk Hb) as (n & Hn & ->).
    unfold AVM.Btoi. rewrite length_Itob. simpl Nat.leb. cbv iota.
    destruct (Z.leb_spec (AVM.be_decode (AVM.Itob n) + 1) AVM.uint64_max);
      case_bool_decide; (done || lia).
  - destruct (Z.leb_spec (0 + 1) AVM.uint64_max);
      case_bool_decide; (done || lia).
Qed.

End Outcomes.

(** X1. [add_proposal] is accepted exactly when the payment goes to the
    application, the sender's key is free, the minimum balance does not
    shrink with the write and the payment covers its growth (more is
    accepted as well).  An accepted call stores the proposal bytes under
    the sender's key and changes nothing else: every other box, the
    winner pointer, every vote count and the set of voters are what they
    were. *)
Theorem add_proposal_outcome env proposal proposal_id f s :
  is_address (sender env) →
  let key := sender env ++ AVM.Itob proposal_id in
  let before := minBalance env (boxes s) in
  let after := minBalance env (<[proposals key := proposal]> (boxes s)) in
  ((∃ s', DAO.add_proposal env proposal proposal_id f s = inr (tt, s')) ↔
   receiver f = current_application_address env ∧
   boxes s !! proposals key = None ∧
   before ≤ after ∧ after - before ≤ amount f) ∧
  ∀ s', DAO.add_proposal env proposal proposal_id f s = inr (tt, s') →
    boxes s' !! proposals key = Some proposal ∧
    (∀ name, name ≠ proposals key → boxes s' !! name = boxes s !! name) ∧
    winning_proposal_votes s' = winning_proposal_votes s ∧
    winning_proposal s' = winning_proposal s ∧
    (∀ k, vote_count s' k = vote_count s k) ∧
    voters s' = voters s.
Proof.
  intros Hsender key before after.
  assert (Hk : is_key key) by by apply is_key_Tuple2.
  split.
  - rewrite add_proposal_eq. cbv zeta. fold key before after.
    unfold AVM.minus, mbind, result_bind.
    case_bool_decide as Hreceiver; [|split; [by intros [? ?]|by intros [? _]]].
    destruct (boxes s !! proposals key) as [p|];
      [split; [by intros [? ?]|by intros (_ & ? & _)]|].
    destruct (Z.leb_spec before after);
      [|split; [by intros [? ?]|intros (_ & _ & ? & _); lia]].
    destruct (Z.leb_spec (after - before) (amount f)).
    + split; [done|]. intros _. eauto.
    + split; [by intros [? ?]|intros (_ & _ & _ & ?); lia].
  - intros s' (_ & Hfree & ->)%add_proposal_accepted. fold key in Hfree |- *.
    split; [apply lookup_insert_eq|].
    split; [by intros name Hne; apply lookup_insert_ne|].
    split; [done|]. split; [done|].
    split; [|by apply voters_with_proposal].
    intros k. unfold vote_count, with_proposal. simpl.
    rewrite lookup_insert_ne; [done|].
    intros Heq. symmetry in Heq. by destruct (votes_ne_proposals _ _ Heq).
Qed.

Lemma add_proposal_outcome_witness :
  let env := sample_env "a" in
  let proposal := NFTProposal.encode sample_proposal in
  let s := apply_call DAO.create (call_vote (sample_env "b") (account "a") 0) in
  let key := account "a" ++ AVM.Itob 0 in
  ∃ s', DAO.add_proposal env proposal 0 (mkPayment (account "D") 1000000) s
          = inr (tt, s') ∧
        boxes s' !! proposals key = Some proposal ∧
        vote_count s' key = 1 ∧
        voters s' = voters s.
Proof.
  intros env proposal s key.
  destruct (add_proposal_outcome env proposal 0
              (mkPayment (account "D") 1000000) s) as [[_ Hacc] Heff];
    [by vm_compute|].
  destruct Hacc as [s' Hs']; [by vm_compute|].
  exists s'. split; [done|].
  destruct (Heff s' Hs') as (Hbox & _ & _ & _ & Hcount & Hvoters).
  split; [done|]. split; [|done]. rewrite Hcount. by vm_compute.
Defined.

(** X3. In a reachable state a vote is rejected in two cases only: the
    sender's ballot guard is already set, or the guard is not set and
    the count of the key is the largest uint64, which adding one would
    overflow.  An accepted vote writes the guard box of the sender and
    the count box of the key, and no other box. *)
Theorem vote_outcome s env proposer proposal_id :
  reachable s →
  well_formed (call_vote env proposer proposal_id) →
  let key := proposer ++ AVM.Itob proposal_id in
  (DAO.vote env proposer proposal_id s = inl has_already_voted ↔
   is_Some (boxes s !! has_voted (sender env))) ∧
  (DAO.vote env proposer proposal_id s = inl uint64_overflow ↔
   boxes s !! has_voted (sender env) = None ∧
   vote_count s key = AVM.uint64_max) ∧
  (∀ e, DAO.vote env proposer proposal_id s = inl e →
        e = has_already_voted ∨ e = uint64_overflow) ∧
  ∀ s', DAO.vote env proposer proposal_id s = inr (tt, s') →
    boxes s' !! has_voted (sender env) = Some (ABI.Bool_encode true) ∧
    boxes s' !! votes key = Some (AVM.Itob (vote_count s key + 1)) ∧
    ∀ name, name ≠ has_voted (sender env) → name ≠ votes key →
            boxes s' !! name = boxes s !! name.
Proof.
  intros Hs [Hsender [Hproposer _]] key. simpl in Hsender.
  assert (Hk : is_key key) by by apply is_key_Tuple2.
  pose proof (reachable_vote_count_range s key Hs Hk) as Hrange.
  rewrite (vote_reachable_eq s env proposer proposal_id Hs Hproposer).
  cbv zeta. fold key.
  destruct (boxes s !! has_voted (sender env)) as [g|] eqn:Hg.
  - split; [split; eauto|]. split; [split; [done|by intros [? _]]|].
    split; [|done]. intros e [= <-]. by left.
  - case_bool_decide as Hlt.
    + split; [split; [done|by intros [? ?]]|].
      split; [split; [done|intros [_ ?]; lia]|]. split; [done|].
      intros s' [= <-]. split; [apply lookup_insert_eq|].
      split; [by apply with_ballot_lookup_votes|].
      intros name Hn1 Hn2. by apply with_ballot_lookup_other.
    + split; [split; [done|by intros [? ?]]|].
      split; [split; [intros _; split; [done|lia]|done]|].
      split; [|done]. intros e [= <-]. by right.
Qed.

Lemma vote_outcome_witness :
  let s := apply_call DAO.create (call_vote (sample_env "a") (account "p") 0) in
  DAO.vote (sample_env "a") (account "q") 1 s = inl has_already_voted ∧
  ∃ s', DAO.vote (sample_env "b") (account "q") 1 s = inr (tt, s') ∧
        boxes s' !! votes (account "p" ++ AVM.Itob 0)
          = boxes s !! votes (account "p" ++ AVM.Itob 0).
Proof.
  intros s.
  assert (Hs : reachable s).
  { apply reachable_call; [apply reachable_create|by vm_compute]. }
  split.
  - destruct (vote_outcome s (sample_env "a") (account "q") 1 Hs)
      as ([_ Hguard] & _); [by vm_compute|].
    apply Hguard. vm_compute. eauto.
  - destruct (vote_outcome s (sample_env "b") (account "q") 1 Hs)
      as (_ & _ & _ & Heff); [by vm_compute|].
    set (s' := apply_call s (call_vote (sample_env "b") (account "q") 1)).
    assert (Hs' : DAO.vote (sample_env "b") (account "q") 1 s = inr (tt, s'))
      by (vm_compute; reflexivity).
    exists s'. split; [done|].
    destruct (Heff s' Hs') as (_ & _ & Hother). by apply Hother.
Defined.

(** ** What the tallies keep *)
Section Keeping.

Lemma reachable_voted_leading s :
  reachable s → voters s ≠ ∅ → 0 < winning_proposal_votes s.
Proof.
  revert s. apply (reachable_step_ind
    (λ s, voters s ≠ ∅ → 0 < winning_proposal_votes s)).
  - intros Hne. by destruct Hne.
  - intros s s' _ IH [|k proposal Hk _|voter k Hv Hk Hfresh Hmax];
      [done|by rewrite voters_with_proposal|].
    intros _. pose proof (vote_count_nonneg s k).
    destruct (Z.lt_ge_cases (winning_proposal_votes s) (vote_count s k + 1))
      as [Hlt|Hge].
    + destruct (with_ballot_leading_gt voter k _ s Hlt) as [-> _]. lia.
    + destruct (with_ballot_leading_le voter k _ s Hge) as [-> _]. lia.
Qed.

Lemma step_monotone s s' :
  step s s' →
  winning_proposal_votes s ≤ winning_proposal_votes s' ∧
  (∀ key, is_key key → vote_count s key ≤ vote_count s' key) ∧
  voters s ⊆ voters s' ∧
  dom (boxes s) ⊆ dom (boxes s').
Proof.
  intros [|k proposal Hk Hfree|voter k Hv Hk Hfresh Hmax]; [done|..].
  - split; [done|]. split.
    + intros key _. unfold vote_count, with_proposal. simpl.
      rewrite lookup_insert_ne; [done|].
      intros Heq. symmetry in Heq. by destruct (votes_ne_proposals _ _ Heq).
    + rewrite voters_with_proposal by done. split; [done|].
      unfold with_proposal. simpl. rewrite dom_insert_L.
      apply union_subseteq_r.
  - pose proof (vote_count_nonneg s k) as Hnn. split; [|split; [|split]].
    + destruct (Z.lt_ge_cases (winning_proposal_votes s) (vote_count s k + 1))
        as [Hlt|Hge].
      * destruct (with_ballot_leading_gt voter k _ s Hlt) as [-> _]. lia.
      * by destruct (with_ballot_leading_le voter k _ s Hge) as [-> _].
    + intros key Hkey. destruct (decide (key = k)) as [->|Hne].
      * rewrite with_ballot_vote_count by (done || (split; lia)). lia.
      * by rewrite with_ballot_vote_count_other.
    + rewrite voters_with_ballot by done. apply union_subseteq_r.
    + unfold with_ballot. simpl. rewrite !dom_insert_L.
      etrans; apply union_subseteq_r.
Qed.

End Keeping.

(** X4. In every reachable state the winner pointer holds its empty
    default exactly when the leading count is 0, and the leading count
    is 0 exactly when no identity has voted. *)
Theorem pointer_default_iff_no_vote s :
  reachable s →
  (winning_proposal s = [] ↔ winning_proposal_votes s = 0) ∧
  (winning_proposal_votes s = 0 ↔ voters s = ∅).
Proof.
  intros Hs. pose proof (reachable_pointer_consistent s Hs) as Hptr.
  split.
  - destruct Hptr as [[Hz Hnil]|(Hpos & Hk & _)]; [done|].
    split; [|lia]. intros Hnil. rewrite Hnil in Hk. done.
  - split.
    + intros Hz. destruct (decide (voters s = ∅)) as [|Hne]; [done|].
      pose proof (reachable_voted_leading s Hs Hne). lia.
    + intros Hnone.
      destruct Hptr as [[Hz _]|(Hpos & Hk & Hbox)]; [done|].
      pose proof (vote_count_le_voters s _ Hs Hk) as Hle.
      rewrite (vote_count_decode _ _ _ Hbox) in Hle.
      rewrite be_decode_Itob in Hle by (split; lia).
      rewrite Hnone, size_empty in Hle. simpl in Hle. lia.
Qed.

Lemma pointer_default_iff_no_vote_witness :
  let s := apply_call DAO.create
             (call_add_proposal (sample_env "a") ["x"]%char 0
                (mkPayment (account "D") 100000)) in
  winning_proposal s = [] ∧ voters s = ∅.
Proof.
  intros s.
  assert (Hs : reachable s).
  { apply reachable_call; [apply reachable_create|by vm_compute]. }
  destruct (pointer_default_iff_no_vote s Hs) as [[Hnil _] [Hnone _]].
  assert (Hz : winning_proposal_votes s = 0) by by apply Hnil; vm_compute.
  split; [by vm_compute|by apply Hnone].
Defined.

(** X5. Nothing is ever taken back: over any calls the leading count and
    the count of every key can only grow, an identity that has voted
    stays among the voters, and no box is deleted. *)
Theorem tallies_only_grow s cs :
  Forall well_formed cs →
  let s' := apply_calls s cs in
  winning_proposal_votes s ≤ winning_proposal_votes s' ∧
  (∀ key, is_key key → vote_count s key ≤ vote_count s' key) ∧
  voters s ⊆ voters s' ∧
  dom (boxes s) ⊆ dom (boxes s').
Proof.
  intros Hcs s'.
  apply (apply_calls_step_ind
           (λ t, winning_proposal_votes s ≤ winning_proposal_votes t ∧
                 (∀ key, is_key key → vote_count s key ≤ vote_count t key) ∧
                 voters s ⊆ voters t ∧
                 dom (boxes s) ⊆ dom (boxes t))); [|done|done].
  intros t t' (Hw & Hc & Hv & Hd) Hstep.
  destruct (step_monotone t t' Hstep) as (Hw' & Hc' & Hv' & Hd').
  split; [lia|]. split; [|split; by etrans].
  intros key Hkey. specialize (Hc key Hkey). specialize (Hc' key Hkey). lia.
Qed.

Lemma tallies_only_grow_witness :
  let s := apply_call DAO.create (call_vote (sample_env "a") (account "p") 0) in
  let s' := apply_calls s
              [call_vote (sample_env "b") (account "q") 0;
               call_vote (sample_env "a") (account "q") 0;
               call_mint (sample_env "c")] in
  winning_proposal_votes s ≤ winning_proposal_votes s' ∧
  (∀ key, is_key key → vote_count s key ≤ vote_count s' key) ∧
  voters s ⊆ voters s' ∧
  dom (boxes s) ⊆ dom (boxes s').
Proof.
  intros s. apply (tallies_only_grow s).
  repeat constructor; by vm_compute.
Defined.



(** ** Two ballots in either order *)
Section Order.



End Order.



(** ** Proposals that cannot be read *)
Section Unreadable.

Lemma field_read_error (r : bytes → result bytes) b e :
  r b = inl e →
  r = NFTProposal.get_url ∨ r = NFTProposal.get_metadata_hash ∨
  r = NFTProposal.get_name ∨ r = NFTProposal.get_unit_name ∨
  r = NFTProposal.get_reserve →
  e = extract_out_of_range.
Proof.
  intros Hr [->|[->|[->|[->| ->]]]]; revert Hr;
    unfold NFTProposal.get_url, NFTProposal.get_metadata_hash,
      NFTProposal.get_name, NFTProposal.get_unit_name,
      NFTProposal.get_reserve, AVM.ExtractUint16, AVM.Substring,
      AVM.Suffix, AVM.Extract, mbind, result_bind;
    repeat case_match; congruence.
Qed.

Lemma mint_nft_short env proposal :
  (length proposal < NFTProposal.head_length)%nat →
  Minter.mint_nft env proposal = inl extract_out_of_range.
Proof.
  intros Hshort. unfold Minter.mint_nft, mbind, result_bind.
  destruct (NFTProposal.get_name proposal) as [e|name] eqn:Hname.
  { f_equal. eapply field_read_error; [done|auto]. }
  destruct (NFTProposal.get_unit_name proposal) as [e|unit_name] eqn:Hunit.
  { f_equal. eapply field_read_error; [done|auto]. }
  assert (Hreserve : NFTProposal.get_reserve proposal
                     = inl extract_out_of_range).
  { unfold NFTProposal.get_reserve, AVM.Extract.
    unfold NFTProposal.head_length in Hshort.
    destruct (Nat.leb_spec (38 + 32) (length proposal)); [lia|done]. }
  by rewrite Hreserve.
Qed.

End Unreadable.

(** X8. [add_proposal] stores the proposal bytes as they come, and
    [mint_nft] has to read all five fields before it submits anything:
    when the bytes stored for the winning key are shorter than the 70
    bytes of the tuple's head, [mint_nft] is rejected by an out-of-range
    read, and so is [mint], whatever the ledger would answer. *)
Theorem unreadable_winner_blocks_mint s env proposal :
  boxes s !! proposals (winning_proposal s) = Some proposal →
  (length proposal < NFTProposal.head_length)%nat →
  Minter.mint_nft env proposal = inl extract_out_of_range ∧
  DAO.mint env s = inl extract_out_of_range.
Proof.
  intros Hstored Hshort.
  pose proof (mint_nft_short env proposal Hshort) as Hnft.
  split; [done|]. by rewrite mint_eq, Hstored, Hnft.
Qed.

Lemma unreadable_winner_blocks_mint_witness :
  let s := apply_calls DAO.create
             [call_add_proposal (sample_env "a") ["x"]%char 0
                (mkPayment (account "D") 100000);
              call_vote (sample_env "b") (account "a") 0] in
  reachable s ∧
  Minter.mint_nft (sample_env "c") ["x"]%char = inl extract_out_of_range ∧
  DAO.mint (sample_env "c") s = inl extract_out_of_range.
Proof.
  intros s. split.
  - do 2 (apply reachable_call; [|by vm_compute]). apply reachable_create.
  - apply (unreadable_winner_blocks_mint s (sample_env "c") ["x"]%char).
    + by vm_compute.
    + unfold NFTProposal.head_length. simpl. lia.
Defined.

(** X9. The encoding of a proposal record and the field reads of
    [mint_nft] are inverse to each other: from the encoding of a valid
    record each of the five reads gives back its field, and the encoding
    is the 70-byte head followed by the three length-prefixed strings. *)
Theorem proposal_fields_round_trip p :
  NFTProposal.valid p →
  let encoded := NFTProposal.encode p in
  NFTProposal.get_url encoded = inr (NFTProposal.url p) ∧
  NFTProposal.get_metadata_hash encoded = inr (NFTProposal.metadata_hash p) ∧
  NFTProposal.get_name encoded = inr (NFTProposal.name p) ∧
  NFTProposal.get_unit_name encoded = inr (NFTProposal.unit_name p) ∧
  NFTProposal.get_reserve encoded = inr (NFTProposal.reserve p) ∧
  length encoded
    = (NFTProposal.head_length
       + (2 + length (NFTProposal.url p))
       + (2 + length (NFTProposal.name p))
       + (2 + length (NFTProposal.unit_name p)))%nat.
Proof.
  intros Hvalid encoded. unfold encoded.
  rewrite get_url_encode, get_metadata_hash_encode, get_name_encode,
    get_unit_name_encode, get_reserve_encode, length_encode by done.
  repeat split; lia.
Qed.

Lemma proposal_fields_round_trip_witness :
  NFTProposal.get_name (NFTProposal.encode sample_proposal)
    = inr ["A"; "r"; "t"]%char ∧
  length (NFTProposal.encode sample_proposal) = 84%nat.
Proof.
  destruct (proposal_fields_round_trip sample_proposal)
    as (_ & _ & Hname & _ & _ & Hlen); [by vm_compute|].
  split; [done|]. rewrite Hlen. reflexivity.
Defined.

(** X10. A submission only ever occupies the key of its own sender: after
    an accepted [add_proposal] of one sender at a sequence number, the
    proposal box of every other (sender, number) pair is what it was, so
    a key that was free for another submission is still free. *)
Theorem submission_occupies_own_key_only
    env proposal proposal_id f s u s1 a n :
  well_formed (call_add_proposal env proposal proposal_id f) →
  DAO.add_proposal env proposal proposal_id f s = inr (u, s1) →
  is_address a → is_uint64 n →
  (a, n) ≠ (sender env, proposal_id) →
  boxes s1 !! proposals (ABI.Tuple2_set a n)
    = boxes s !! proposals (ABI.Tuple2_set a n).
Proof.
  intros [Hsender [Hid _]] (_ & _ & ->)%add_proposal_accepted Ha Hn Hne.
  simpl in Hsender. unfold with_proposal. simpl.
  apply lookup_insert_ne. intros Heq%proposals_inj.
  apply (Tuple2_set_inj (sender env) proposal_id a n) in Heq as [Hsame Hnum];
    [|done..].
  apply Hne. by rewrite Hsame, Hnum.
Qed.

Lemma submission_occupies_own_key_only_witness :
  let f := mkPayment (account "D") 100000 in
  let s1 := apply_call DAO.create
              (call_add_proposal (sample_env "a") ["x"]%char 7 f) in
  boxes s1 !! proposals (ABI.Tuple2_set (account "b") 7) = None ∧
  boxes s1 !! proposals (ABI.Tuple2_set (account "a") 8) = None.
Proof.
  intros f s1.
  assert (Hwf : well_formed
                  (call_add_proposal (sample_env "a") ["x"]%char 7 f))
    by by vm_compute.
  assert (H7 : is_uint64 7) by by vm_compute.
  assert (H8 : is_uint64 8) by by vm_compute.
  assert (Ha : is_address (account "a")) by reflexivity.
  assert (Hb : is_address (account "b")) by reflexivity.
  assert (Hneb : (account "b", 7) ≠ (sender (sample_env "a"), 7))
    by by intros [= ?].
  assert (Hnea : (account "a", 8) ≠ (sender (sample_env "a"), 7))
    by by intros [= ?].
  assert (Hrun : DAO.add_proposal (sample_env "a") ["x"]%char 7 f DAO.create
                 = inr (tt, s1)) by (vm_compute; reflexivity).
  split.
  - rewrite (submission_occupies_own_key_only (sample_env "a") ["x"]%char
               7 f DAO.create tt s1 (account "b") 7 Hwf Hrun Hb H7 Hneb).
    reflexivity.
  - rewrite (submission_occupies_own_key_only (sample_env "a") ["x"]%char
               7 f DAO.create tt s1 (account "a") 8 Hwf Hrun Ha H8 Hnea).
    reflexivity.
Defined.

(** X11. What an accepted [mint] presupposes and leaves behind: in a
    reachable state [mint] is accepted only when some identity has
    voted, the key the pointer names holds a proposal of at least the
    70 bytes of a tuple head, and the minter returned an asset id, of
    which [mint] returns the 8-byte value.  The storage is unchanged and
    nothing records the mint, so the same call is accepted again. *)
Theorem mint_accepted_only_with_winner s env id s' :
  reachable s →
  DAO.mint env s = inr (id, s') →
  s' = s ∧
  DAO.mint env s' = inr (id, s') ∧
  voters s ≠ ∅ ∧
  is_key (winning_proposal s) ∧
  is_uint64 id ∧
  ∃ proposal created,
    boxes s !! proposals (winning_proposal s) = Some proposal ∧
    (NFTProposal.head_length ≤ length proposal)%nat ∧
    Minter.mint_nft env proposal = inr created ∧
    id = created mod 2 ^ 64.
Proof.
  intros Hs Hmint. pose proof (mint_accepted _ _ _ _ Hmint) as ->.
  split; [done|]. split; [done|].
  rewrite mint_eq in Hmint.
  destruct (boxes s !! proposals (winning_proposal s)) as [proposal|] eqn:Hp;
    [|done].
  unfold mbind, result_bind in Hmint.
  destruct (Minter.mint_nft env proposal) as [e|created] eqn:Hnft; [done|].
  injection Hmint as <-.
  assert (Hne : winning_proposal s ≠ []).
  { intros Hnil. rewrite Hnil, reachable_no_bare_prefix_box in Hp; done. }
  destruct (reachable_pointer_consistent s Hs) as [[_ ?]|(Hpos & Hk & _)];
    [done|].
  split.
  { intros Hnone.
    destruct (decide (voters s = ∅)) as [Hv|Hv]; [|done].
    pose proof (vote_count_le_voters s _ Hs Hk) as Hle.
    destruct (reachable_pointer_consistent s Hs) as [[_ ?]|(_ & _ & Hbox)];
      [done|].
    rewrite (vote_count_decode _ _ _ Hbox) in Hle.
    rewrite be_decode_Itob in Hle by (split; lia).
    rewrite Hv, size_empty in Hle. simpl in Hle. lia. }
  split; [done|].
  assert (Hid : AVM.be_decode (AVM.Itob created) = created mod 2 ^ 64).
  { unfold AVM.Itob. by rewrite be_decode_encode. }
  split.
  { rewrite Hid. unfold is_uint64, AVM.uint64_max.
    pose proof (Z.mod_pos_bound created (2 ^ 64)). lia. }
  exists proposal, created. split; [done|]. split; [|done].
  destruct (Nat.le_gt_cases NFTProposal.head_length (length proposal))
    as [|Hshort]; [done|].
  by rewrite (mint_nft_short env proposal Hshort) in Hnft.
Qed.

Lemma mint_accepted_only_with_winner_witness :
  let s := apply_calls DAO.create
             [call_add_proposal (sample_env "a")
                (NFTProposal.encode sample_proposal) 0
                (mkPayment (account "D") 100000);
              call_vote (sample_env "b") (account "a") 0] in
  DAO.mint (sample_env "c") s = inr (1001, s) ∧
  voters s ≠ ∅ ∧
  is_key (winning_proposal s).
Proof.
  intros s.
  assert (Hs : reachable s).
  { do 2 (apply reachable_call; [|by vm_compute]). apply reachable_create. }
  assert (Hmint : DAO.mint (sample_env "c") s = inr (1001, s))
    by (vm_compute; reflexivity).
  destruct (mint_accepted_only_with_winner s (sample_env "c") 1001 s Hs Hmint)
    as (_ & _ & Hvoters & Hkey & _).
  split; [exact Hmint|]. split; [exact Hvoters|exact Hkey].
Defined.
